(** * mltu data provider: a shallow embedding of [mltu/dataProvider.py]
    and [mltu/torch/dataProvider.py], with the properties of its batch
    pipeline.

    Python integers are unbounded and are modelled by [Z]; Python lists by
    [list]; the dictionary [_cache] by a [gmap].  Mutable data objects
    (arrays, tensors) live in an explicit heap so that aliasing and
    [copy.deepcopy] are visible.  Exceptions are explicit outcomes that
    keep the state reached when they were raised.

    Outside the code of the repository, the file fixes the following
    readings.  A float is the rational it denotes.  The logger is the
    list of the calls made to it.  [np.array] of a list of samples is the
    array of these samples, in order.  [np.random] is a tape of raw draws.
    The thread pool runs each task as one step on the shared state, the
    tasks finishing in an arbitrary order, and [Executor.map] yields the
    results in the order of submission. *)

From Stdlib Require Import ZArith QArith Qround Lia Permutation.
From stdpp Require Import gmap strings list.

Local Open Scope Z_scope.

(** ** Python outcomes *)

Inductive exn : Type :=
| TypeError
| ValueError
| IndexError
| AttributeError
| ZeroDivisionError
| FileNotFoundError
| StageError (code : Z).

(** A call either returns a value or raises; both carry the state. *)
Inductive outcome (S A : Type) : Type :=
| Ret (a : A) (s : S)
| Exc (e : exn) (s : S).
Arguments Ret {S A} a s.
Arguments Exc {S A} e s.

Definition M (S A : Type) : Type := S -> outcome S A.

Definition ret {S A} (a : A) : M S A := fun s => Ret a s.
Definition raise {S A} (e : exn) : M S A := fun s => Exc e s.
Definition bind {S A B} (m : M S A) (k : A -> M S B) : M S B :=
  fun s => match m s with
           | Ret a s' => k a s'
           | Exc e s' => Exc e s'
           end.
Definition get {S} : M S S := fun s => Ret s s.
Definition modify {S} (f : S -> S) : M S unit := fun s => Ret tt (f s).

Notation "x <~ m ;; k" := (bind m (fun x => k))
  (at level 100, m at next level, right associativity).
Notation "m ;;; k" := (bind m (fun _ => k))
  (at level 100, right associativity).

(** ** Python values and the object heap *)

Abbreviation loc := nat.

(** Immutable values are carried directly; mutable objects are
    references into the heap. *)
Inductive val : Type :=
| VNone
| VInt (z : Z)
| VFloat (bits : Z)
| VStr (s : string)
| VUint8 (n : Z)
| VRef (l : loc).

#[global] Instance val_eq_dec : EqDecision val.
Proof. solve_decision. Defined.

Definition val_to_sum (v : val) : unit + (Z + (Z + (string + (Z + nat)))) :=
  match v with
  | VNone => inl tt
  | VInt z => inr (inl z)
  | VFloat b => inr (inr (inl b))
  | VStr s => inr (inr (inr (inl s)))
  | VUint8 n => inr (inr (inr (inr (inl n))))
  | VRef l => inr (inr (inr (inr (inr l))))
  end.

Definition val_of_sum (x : unit + (Z + (Z + (string + (Z + nat))))) : val :=
  match x with
  | inl _ => VNone
  | inr (inl z) => VInt z
  | inr (inr (inl b)) => VFloat b
  | inr (inr (inr (inl s))) => VStr s
  | inr (inr (inr (inr (inl n)))) => VUint8 n
  | inr (inr (inr (inr (inr l)))) => VRef l
  end.

#[global] Instance val_countable : Countable val.
Proof.
  apply (inj_countable' val_to_sum val_of_sum). intros []; reflexivity.
Defined.

(** What a heap object is an instance of: [np.ndarray], a tensor (an
    object with a [numpy()] method) or any other object. *)
Inductive pykind : Type := KNdarray | KTensor | KObject.

#[global] Instance pykind_eq_dec : EqDecision pykind.
Proof. solve_decision. Defined.

Record pyobj : Type := PyObj { kind : pykind; payload : list Z }.

#[global] Instance pyobj_eq_dec : EqDecision pyobj.
Proof. solve_decision. Defined.

(** The heap is an array of objects; a location is an index into it and
    allocation appends. *)
Abbreviation heap := (list pyobj).

(** [copy.deepcopy] walks an object graph with a memo from the objects
    already copied to their copies: an immutable value is its own copy,
    an object seen before yields the copy made then, a new object is
    cloned into a fresh location. *)
Definition deepcopy_memo (v : val) : M (heap * gmap loc loc) val :=
  fun s =>
    match v with
    | VRef l =>
        match s.2 !! l with
        | Some l' => Ret (VRef l') s
        | None =>
            match s.1 !! l with
            | Some o => Ret (VRef (length s.1)) (s.1 ++ [o], <[l := length s.1]> s.2)
            | None => Ret v s
            end
        end
    | _ => Ret v s
    end.

(** Runs a copy with a fresh memo and drops the memo afterwards. *)
Definition with_memo {A} (m : M (heap * gmap loc loc) A) : M heap A :=
  fun h => match m (h, ∅) with
           | Ret a s => Ret a s.1
           | Exc e s => Exc e s.1
           end.

(** [copy.deepcopy(v)]. *)
Definition deepcopy (v : val) : M heap val := with_memo (deepcopy_memo v).

(** [copy.deepcopy((d, a))]: one memo for both components of the tuple. *)
Definition deepcopy_pair (p : val * val) : M heap (val * val) :=
  with_memo (d <~ deepcopy_memo p.1 ;; a <~ deepcopy_memo p.2 ;; ret (d, a)).

(** ** Sample descriptors, stages and the provider *)

(** A descriptor is a row [[primary identifier, annotation]]. *)
Definition descriptor : Type := val * val.

(** A pipeline stage is a callable [(data, annotation) -> (data,
    annotation)] that may allocate and mutate heap objects and may raise.
    [is_Augmentor] and [is_Transformer] answer [isinstance]. *)
Record callable : Type := Callable {
  is_Augmentor : bool;
  is_Transformer : bool;
  call : val -> val -> M heap (val * val)
}.

Inductive loglevel : Type := INFO | WARNING.

Record DataProvider : Type := mkDataProvider {
  _dataset : list descriptor;
  _data_preprocessors : list callable;
  _batch_size : Z;
  _shuffle : bool;
  _epoch : Z;
  _augmentors : option (list callable);
  _transformers : option (list callable);
  _skip_validation : bool;
  _limit : option Z;
  _use_cache : bool;
  _step : Z;
  _cache : gmap val (val * val);
  _on_epoch_end_remove : list descriptor;
  logger : list (loglevel * string)
}.

Definition set_dataset (ds : list descriptor) (p : DataProvider) : DataProvider :=
  mkDataProvider ds (_data_preprocessors p) (_batch_size p) (_shuffle p)
    (_epoch p) (_augmentors p) (_transformers p) (_skip_validation p)
    (_limit p) (_use_cache p) (_step p) (_cache p) (_on_epoch_end_remove p)
    (logger p).


Definition set_augmentors (a : option (list callable)) (p : DataProvider)
  : DataProvider :=
  mkDataProvider (_dataset p) (_data_preprocessors p) (_batch_size p)
    (_shuffle p) (_epoch p) a (_transformers p) (_skip_validation p)
    (_limit p) (_use_cache p) (_step p) (_cache p) (_on_epoch_end_remove p)
    (logger p).

Definition set_transformers (t : option (list callable)) (p : DataProvider)
  : DataProvider :=
  mkDataProvider (_dataset p) (_data_preprocessors p) (_batch_size p)
    (_shuffle p) (_epoch p) (_augmentors p) t (_skip_validation p)
    (_limit p) (_use_cache p) (_step p) (_cache p) (_on_epoch_end_remove p)
    (logger p).

Definition set_step (i : Z) (p : DataProvider) : DataProvider :=
  mkDataProvider (_dataset p) (_data_preprocessors p) (_batch_size p)
    (_shuffle p) (_epoch p) (_augmentors p) (_transformers p)
    (_skip_validation p) (_limit p) (_use_cache p) i (_cache p)
    (_on_epoch_end_remove p) (logger p).

Definition set_cache (c : gmap val (val * val)) (p : DataProvider)
  : DataProvider :=
  mkDataProvider (_dataset p) (_data_preprocessors p) (_batch_size p)
    (_shuffle p) (_epoch p) (_augmentors p) (_transformers p)
    (_skip_validation p) (_limit p) (_use_cache p) (_step p) c
    (_on_epoch_end_remove p) (logger p).

Definition set_on_epoch_end_remove (r : list descriptor) (p : DataProvider)
  : DataProvider :=
  mkDataProvider (_dataset p) (_data_preprocessors p) (_batch_size p)
    (_shuffle p) (_epoch p) (_augmentors p) (_transformers p)
    (_skip_validation p) (_limit p) (_use_cache p) (_step p) (_cache p) r
    (logger p).

Definition log (lvl : loglevel) (msg : string) (p : DataProvider)
  : DataProvider :=
  mkDataProvider (_dataset p) (_data_preprocessors p) (_batch_size p)
    (_shuffle p) (_epoch p) (_augmentors p) (_transformers p)
    (_skip_validation p) (_limit p) (_use_cache p) (_step p) (_cache p)
    (_on_epoch_end_remove p) (logger p ++ [(lvl, msg)]).

(** ** Python list primitives *)

(** [range(a, b)]. *)
Definition py_range (a b : Z) : list Z :=
  (fun k : nat => a + Z.of_nat k) <$> seq 0 (Z.to_nat (b - a)).

(** [l[i]] with Python's negative indices; [None] stands for IndexError. *)
Definition py_index {A} (l : list A) (i : Z) : option A :=
  let n := Z.of_nat (length l) in
  if decide (0 <= i) then l !! Z.to_nat i
  else if decide (- n <= i) then l !! Z.to_nat (n + i)
  else None.

(** The bound a slice index is clipped to: [l[:k]] and [l[k:]]. *)
Definition py_clip {A} (l : list A) (k : Z) : nat :=
  let n := Z.of_nat (length l) in
  if decide (0 <= k) then Z.to_nat (Z.min k n) else Z.to_nat (Z.max (n + k) 0).

Definition py_slice_to {A} (l : list A) (k : Z) : list A := take (py_clip l k) l.
Definition py_slice_from {A} (l : list A) (k : Z) : list A := drop (py_clip l k) l.

(** ** [__len__] and [get_batch_annotations] *)

(** [int(np.ceil(len(self._dataset) / self._batch_size))].  The true
    division is taken over the rationals: the IEEE double quotient of two
    integers below 2^53 is never rounded across an integer, so [np.ceil]
    of it is the exact ceiling for every list that fits in memory.
    Dividing by zero raises. *)
Definition __len__ : M DataProvider Z :=
  self <~ get ;;
  if decide (_batch_size self = 0) then raise ZeroDivisionError
  else ret (Qceiling (inject_Z (Z.of_nat (length (_dataset self)))
                      / inject_Z (_batch_size self))).

Definition get_batch_annotations (index : Z) : M DataProvider (list descriptor) :=
  modify (set_step index) ;;;
  self <~ get ;;
  let start_index := index * _batch_size self in
  let batch_indexes :=
    filter (fun i => i < Z.of_nat (length (_dataset self)))
           (py_range start_index (start_index + _batch_size self)) in
  match mapM (py_index (_dataset self)) batch_indexes with
  | Some batch_annotations => ret batch_annotations
  | None => raise IndexError
  end.

(** ** The world a provider runs in *)

(** The object heap, numpy's global random generator (the tape of raw
    draws it will produce) and the provider instance. *)
Record world : Type := World {
  objs : heap;
  np_random : list nat;
  self : DataProvider
}.

Definition on_objs {A} (m : M heap A) : M world A :=
  fun w => match m (objs w) with
           | Ret a h => Ret a (World h (np_random w) (self w))
           | Exc e h => Exc e (World h (np_random w) (self w))
           end.

Definition on_random {A} (m : M (list nat) A) : M world A :=
  fun w => match m (np_random w) with
           | Ret a r => Ret a (World (objs w) r (self w))
           | Exc e r => Exc e (World (objs w) r (self w))
           end.

Definition on_self {A} (m : M DataProvider A) : M world A :=
  fun w => match m (self w) with
           | Ret a p => Ret a (World (objs w) (np_random w) p)
           | Exc e p => Exc e (World (objs w) (np_random w) p)
           end.

(** ** [process_data] *)

(** Whether a value can be a dictionary key: arrays are unhashable, every
    other object hashes by identity. *)
Definition hashable (h : heap) (v : val) : bool :=
  match v with
  | VRef l =>
      match h !! l with
      | Some o => bool_decide (kind o ≠ KNdarray)
      | None => true
      end
  | _ => true
  end.

(** [key in self._cache]. *)
Definition cache_contains (key : val) : M world bool :=
  w <~ get ;;
  if hashable (objs w) key
  then ret (bool_decide (is_Some (_cache (self w) !! key)))
  else raise TypeError.

(** [for stage in stages: data, annotation = stage(data, annotation)]. *)
Fixpoint run_stages (stages : list callable) (p : val * val)
  : M heap (val * val) :=
  match stages with
  | [] => ret p
  | f :: rest => q <~ call f p.1 p.2 ;; run_stages rest q
  end.

(** [for object in objects: ...] over a stage list attribute; iterating
    [None] raises. *)
Definition run_stage_list (objects : option (list callable)) (p : val * val)
  : M heap (val * val) :=
  match objects with
  | Some stages => run_stages stages p
  | None => raise TypeError
  end.

(** [x.numpy()]: a tensor materialises as a new array, anything else has
    no such method. *)
Definition numpy (v : val) : M heap val :=
  fun h =>
    match v with
    | VRef l =>
        match h !! l with
        | Some (PyObj KTensor buf) => Ret (VRef (length h)) (h ++ [PyObj KNdarray buf])
        | _ => Exc AttributeError h
        end
    | _ => Exc AttributeError h
    end.

Definition is_ndarray (h : heap) (v : val) : bool :=
  match v with
  | VRef l =>
      match h !! l with
      | Some o => bool_decide (kind o = KNdarray)
      | None => false
      end
  | _ => false
  end.

(** [isinstance(annotation, (np.ndarray, int, float, str, np.uint8, float))]. *)
Definition is_array_or_scalar (h : heap) (v : val) : bool :=
  match v with
  | VInt _ | VFloat _ | VStr _ | VUint8 _ => true
  | _ => is_ndarray h v
  end.

Definition data_to_numpy (data : val) : M heap val :=
  h <~ get ;;
  if is_ndarray h data then ret data else numpy data.

Definition annotation_to_numpy (annotation : val) : M heap val :=
  h <~ get ;;
  if is_array_or_scalar h annotation then ret annotation else numpy annotation.

Definition is_None (v : val) : bool := bool_decide (v = VNone).

(** Lines 216-229: the cached or preprocessed pair, or [None] when the
    function returns the [(None, None)] sentinel early. *)
Definition load_sample (batch_data : descriptor) : M world (option (val * val)) :=
  w <~ get ;;
  hit <~ (if _use_cache (self w) then cache_contains batch_data.1 else ret false) ;;
  if hit : bool then
    w <~ get ;;
    match _cache (self w) !! batch_data.1 with
    | Some entry => p <~ on_objs (deepcopy_pair entry) ;; ret (Some p)
    | None => raise TypeError
    end
  else
    w <~ get ;;
    p <~ on_objs (run_stages (_data_preprocessors (self w)) batch_data) ;;
    if is_None p.1 || is_None p.2 then
      on_self (modify (log WARNING
        "Data or annotation is None, marking for removal on epoch end.")) ;;;
      on_self (modify (fun s =>
        set_on_epoch_end_remove (_on_epoch_end_remove s ++ [batch_data]) s)) ;;;
      ret None
    else
      w <~ get ;;
      fresh <~ (if _use_cache (self w)
                then present <~ cache_contains batch_data.1 ;; ret (negb present)
                else ret false) ;;
      (if fresh : bool then
         d <~ on_objs (deepcopy p.1) ;;
         a <~ on_objs (deepcopy p.2) ;;
         on_self (modify (fun s => set_cache (<[batch_data.1 := (d, a)]> (_cache s)) s))
       else ret tt) ;;;
      ret (Some p).

(** Lines 231-245: augment, transform and convert to arrays. *)
Definition finish_sample (p : val * val) : M world (val * val) :=
  w <~ get ;;
  p <~ on_objs (run_stage_list (_augmentors (self w)) p) ;;
  w <~ get ;;
  p <~ on_objs (run_stage_list (_transformers (self w)) p) ;;
  data <~ on_objs (data_to_numpy p.1) ;;
  annotation <~ on_objs (annotation_to_numpy p.2) ;;
  ret (data, annotation).

Definition process_data (batch_data : descriptor) : M world (val * val) :=
  loaded <~ load_sample batch_data ;;
  match loaded with
  | None => ret (VNone, VNone)
  | Some p => finish_sample p
  end.

(** ** [__getitem__] *)

(** What a batch is returned as: a Python list, a stacked array or any
    other object. *)
Inductive bval : Type :=
| BList (items : list val)
| BArray (items : list val)
| BObject (v : val).

(** [np.array(items)]: the array stacked from the samples, in order. *)
Definition np_array (items : list val) : bval := BArray items.

(** The loop of lines 253-262 with its two accumulators. *)
Fixpoint collect_batch (dataset_batch : list descriptor)
    (acc : list val * list val) : M world (list val * list val) :=
  match dataset_batch with
  | [] => ret acc
  | batch :: rest =>
      r <~ process_data batch ;;
      if is_None r.1 || is_None r.2 then
        on_self (modify (log WARNING "Data or annotation is None, skipping.")) ;;;
        collect_batch rest acc
      else collect_batch rest (acc.1 ++ [r.1], acc.2 ++ [r.2])
  end.

Definition __getitem__ (index : Z) : M world (bval * bval) :=
  dataset_batch <~ on_self (get_batch_annotations index) ;;
  acc <~ collect_batch dataset_batch ([], []) ;;
  ret (np_array acc.1, np_array acc.2).

(** ** [np.random.shuffle] and [on_epoch_end] *)

(** One bounded draw from the generator: the next raw number of the tape
    reduced to [0 .. bound-1]; an exhausted tape keeps yielding 0. *)
Definition random_below (bound : nat) : M (list nat) nat :=
  fun tape =>
    match tape with
    | [] => Ret 0%nat []
    | x :: rest => Ret (x mod bound)%nat rest
    end.

(** [l[i], l[j] = l[j], l[i]]. *)
Definition swap {A} (i j : nat) (l : list A) : list A :=
  match l !! i, l !! j with
  | Some x, Some y => <[i := y]> (<[j := x]> l)
  | _, _ => l
  end.

(** numpy's in-place shuffle: for [i] from the last index down to 1, swap
    position [i] with a position drawn from [0 .. i]. *)
Fixpoint shuffle_down {A} (i : nat) (l : list A) : M (list nat) (list A) :=
  match i with
  | O => ret l
  | S i' => j <~ random_below (S i) ;; shuffle_down i' (swap i j l)
  end.

Definition np_random_shuffle {A} (l : list A) : M (list nat) (list A) :=
  shuffle_down (length l - 1) l.




(** ** [validate] *)

(** The forms a [dataset] argument takes: a path, a list of rows, a
    dataframe (given by its rows) or anything else. *)
Inductive pydataset : Type :=
| DStr (path : string)
| DList (rows : list descriptor)
| DFrame (rows : list descriptor)
| DOther (v : val).

(** What [os.path.exists] sees: which paths exist and which file
    descriptors are open. *)
Record filesystem : Type := Filesystem {
  path_exists : string -> bool;
  fd_open : Z -> bool
}.

(** [os.path.exists(v)]: a string is looked up as a path, an integer as a
    file descriptor, any other value raises TypeError. *)
Definition os_path_exists {S} (fs : filesystem) (v : val) : M S bool :=
  match v with
  | VStr s => ret (path_exists fs s)
  | VInt z | VUint8 z => ret (fd_open fs z)
  | _ => raise TypeError
  end.

(** [[data for data in dataset if os.path.exists(data[0])]]. *)
Fixpoint existing_rows {S} (fs : filesystem) (dataset : list descriptor)
  : M S (list descriptor) :=
  match dataset with
  | [] => ret []
  | data :: rest =>
      keep <~ os_path_exists fs data.1 ;;
      tail <~ existing_rows fs rest ;;
      ret (if keep : bool then data :: tail else tail)
  end.

Definition validate_list_dataset (fs : filesystem) (dataset : list descriptor)
    (skip_validation : bool) : M DataProvider (list descriptor) :=
  validated_data <~ existing_rows fs dataset ;;
  match validated_data with
  | [] => raise FileNotFoundError
  | _ => ret validated_data
  end.

(** [validate] returns the dataset, or [None] when it falls off the end
    of the function. *)
Definition validate (fs : filesystem) (dataset : pydataset)
    (skip_validation : bool) : M DataProvider (option pydataset) :=
  match dataset with
  | DStr path =>
      if path_exists fs path then ret (Some dataset) else ret None
  | DList rows =>
      l <~ validate_list_dataset fs rows skip_validation ;; ret (Some (DList l))
  | DFrame rows =>
      l <~ validate_list_dataset fs rows skip_validation ;; ret (Some (DList l))
  | DOther _ => raise TypeError
  end.

(** ** [split] *)

(** [int(x)] of a float: truncation towards zero. *)
Definition py_int (x : Q) : Z :=
  if Qle_bool 0 x then Qfloor x else Qceiling x.

Fixpoint mapM_state {S A B} (f : A -> M S B) (l : list A) : M S (list B) :=
  match l with
  | [] => ret []
  | x :: rest => y <~ f x ;; ys <~ mapM_state f rest ;; ret (y :: ys)
  end.

Definition deepcopy_row (r : val * val) : M (heap * gmap loc loc) (val * val) :=
  a <~ deepcopy_memo r.1 ;; b <~ deepcopy_memo r.2 ;; ret (a, b).

Definition deepcopy_entry (e : val * (val * val))
  : M (heap * gmap loc loc) (val * (val * val)) :=
  k <~ deepcopy_memo e.1 ;; v <~ deepcopy_row e.2 ;; ret (k, v).

(** [copy.deepcopy(self)]: the scalar attributes are copied as they are,
    callables are copied as themselves, and every object reachable from
    the dataset, the cache and the removal list is cloned under one memo. *)
Definition deepcopy_self : M world DataProvider :=
  w <~ get ;;
  let p := self w in
  on_objs (with_memo (
    ds <~ mapM_state deepcopy_row (_dataset p) ;;
    cache <~ mapM_state deepcopy_entry (map_to_list (_cache p)) ;;
    marked <~ mapM_state deepcopy_row (_on_epoch_end_remove p) ;;
    ret (mkDataProvider ds (_data_preprocessors p) (_batch_size p)
           (_shuffle p) (_epoch p) (_augmentors p) (_transformers p)
           (_skip_validation p) (_limit p) (_use_cache p) (_step p)
           (list_to_map cache) marked (logger p)))).

(** [split]: the ratio is a float, taken here as the rational it denotes;
    the product [len(self._dataset) * split] is then exact. *)
Definition split (split : Q) (shuffle : bool)
  : M world (DataProvider * DataProvider) :=
  w <~ get ;;
  (if shuffle then
     ds <~ on_random (np_random_shuffle (_dataset (self w))) ;;
     on_self (modify (set_dataset ds))
   else ret tt) ;;;
  train_data_provider <~ deepcopy_self ;;
  val_data_provider <~ deepcopy_self ;;
  w <~ get ;;
  let ds := _dataset (self w) in
  let k := py_int (inject_Z (Z.of_nat (length ds)) * split) in
  ret (set_dataset (py_slice_to ds k) train_data_provider,
       set_dataset (py_slice_from ds k) val_data_provider).

(** ** The [augmentors] and [transformers] setters *)

(** The list object assigned to the property: the very list the provider
    already holds in the attribute, or some other list. *)
Inductive list_arg : Type :=
| SameObject
| OtherObject (items : list callable).

(** The current content of the assigned list object. *)
Definition assigned_items (attr : DataProvider -> option (list callable))
    (arg : list_arg) (s : DataProvider) : option (list callable) :=
  match arg with
  | SameObject => attr s
  | OtherObject items => Some items
  end.

(** The [for] loop of a setter.  Python's list iterator keeps an index
    [i] and reads the list object afresh at every step, so items appended
    to the iterated list during the loop are visited too.  [fuel] bounds
    the number of steps; [None] is a loop that has not finished. *)
Fixpoint register_stages (fuel : nat)
    (isinstance : callable -> bool)
    (attr : DataProvider -> option (list callable))
    (set_attr : option (list callable) -> DataProvider -> DataProvider)
    (warning : string) (arg : list_arg) (i : nat) (s : DataProvider)
  : option (outcome DataProvider unit) :=
  match fuel with
  | O => None
  | S fuel' =>
      match assigned_items attr arg s with
      | None => Some (Exc TypeError s)
      | Some items =>
          match items !! i with
          | None => Some (Ret tt s)
          | Some stage =>
              register_stages fuel' isinstance attr set_attr warning arg (S i)
                (if isinstance stage then
                   match attr s with
                   | Some registered => set_attr (Some (registered ++ [stage])) s
                   | None => set_attr (Some [stage]) s
                   end
                 else log WARNING warning s)
          end
      end
  end.

Definition augmentors_setter (fuel : nat) (augmentors : list_arg)
  : DataProvider -> option (outcome DataProvider unit) :=
  register_stages fuel is_Augmentor _augmentors set_augmentors
    "Augmentor is not an instance of Augmentor." augmentors 0.

Definition transformers_setter (fuel : nat) (transformers : list_arg)
  : DataProvider -> option (outcome DataProvider unit) :=
  register_stages fuel is_Transformer _transformers set_transformers
    "Transformer is not an instance of Transformer." transformers 0.

(** ** Construction *)

(** Whether a call binds to a signature: no more positional arguments
    than parameters, and every keyword names a parameter that is not
    already bound positionally. *)
Definition binds (params : list string) (positional : nat)
    (keywords : list string) : bool :=
  bool_decide (positional ≤ length params)%nat
  && forallb (fun k => bool_decide (k ∈ drop positional params)) keywords.

(** The parameters after [self] of [DataProvider.__init__] and of
    [DataProvider.validate]. *)
Definition DataProvider_init_params : list string :=
  ["dataset"; "data_preprocessors"; "batch_size"; "shuffle"; "initial_epoch";
   "augmentors"; "transformers"; "skip_validation"; "limit"; "use_cache";
   "log_level"].

Definition validate_params : list string := ["dataset"; "skip_validation"].

(** The argument values of a construction, for a dataset given as a list
    of rows. *)
Record init_args : Type := InitArgs {
  arg_dataset : list descriptor;
  arg_data_preprocessors : option (list callable);
  arg_batch_size : Z;
  arg_shuffle : bool;
  arg_initial_epoch : Z;
  arg_augmentors : option (list callable);
  arg_transformers : option (list callable);
  arg_skip_validation : bool;
  arg_limit : option Z;
  arg_use_cache : bool
}.

Inductive constructed (A : Type) : Type :=
| Built (a : A)
| Failed (e : exn).
Arguments Built {A} a.
Arguments Failed {A} e.

(** [x if x is not None else []]. *)
Definition or_empty {A} (l : option (list A)) : list A := default [] l.

(** [if limit:]: [None] and 0 are false. *)
Definition truthy (limit : option Z) : bool :=
  match limit with
  | Some z => bool_decide (z ≠ 0)
  | None => false
  end.

(** [DataProvider.__init__] called with the keyword arguments named in
    [keywords]. *)
Definition __init__ (fs : filesystem) (keywords : list string)
    (a : init_args) : constructed DataProvider :=
  if negb (binds DataProvider_init_params 0 keywords) then Failed TypeError
  else
    let s0 :=
      mkDataProvider (arg_dataset a) (or_empty (arg_data_preprocessors a))
        (arg_batch_size a) (arg_shuffle a) (arg_initial_epoch a)
        (Some (or_empty (arg_augmentors a)))
        (Some (or_empty (arg_transformers a)))
        (arg_skip_validation a) (arg_limit a) (arg_use_cache a) 0 ∅ [] [] in
    let validated : constructed DataProvider :=
      if negb (arg_skip_validation a) then
        (* self.validate(dataset, skip_validation, limit) *)
        if negb (binds validate_params 3 []) then Failed TypeError
        else
          match validate fs (DList (arg_dataset a)) (arg_skip_validation a) s0 with
          | Ret (Some (DList rows)) s => Built (set_dataset rows s)
          | Ret _ s => Failed TypeError
          | Exc e _ => Failed e
          end
      else Built (log INFO "Skipping Dataset validation..." s0) in
    match validated with
    | Failed e => Failed e
    | Built s =>
        if truthy (arg_limit a) then
          Built (set_dataset (py_slice_to (_dataset s) (default 0 (arg_limit a)))
                   (log INFO "Limiting dataset." s))
        else Built s
    end.

(** ** The pooled provider of [mltu/torch/dataProvider.py] *)

Module torch.

(** A batch postprocessor maps the two assembled lists to whatever it
    builds from them. *)
Definition postprocessor : Type := bval -> bval -> M heap (bval * bval).

(** The attributes the subclass adds.  [_executor] is the pool size once
    the pool exists; [_batch_postprocessors] is [None] while the instance
    has no such attribute. *)
Record torch_attrs : Type := TorchAttrs {
  workers : Z;
  use_multiprocessing : bool;
  _executor : option Z;
  _batch_postprocessors : option (option (list postprocessor))
}.

Definition tworld : Type := world * torch_attrs.

Definition on_base {A} (m : M world A) : M tworld A :=
  fun t => match m t.1 with
           | Ret a w => Ret a (w, t.2)
           | Exc e w => Exc e (w, t.2)
           end.

Record torch_init_args : Type := TorchInitArgs {
  base_args : init_args;
  arg_batch_postprocessors : option (list postprocessor);
  arg_workers : Z;
  arg_use_multiprocessing : bool
}.

(** The keywords of the [super().__init__] call of lines 61-63. *)
Definition super_init_keywords : list string :=
  ["dataset"; "data_preprocessors"; "batch_size"; "shuffle"; "initial_epoch";
   "augmentors"; "transformers"; "batch_postprocessors"; "skip_validation";
   "limit"; "use_cache"].

(** The subclass's [__init__]: the arguments go to the base class's
    [__init__] under the keywords above, then the two pool attributes
    are set. *)
Definition __init__ (fs : filesystem) (a : torch_init_args)
  : constructed (DataProvider * torch_attrs) :=
  match __init__ fs super_init_keywords (base_args a) with
  | Failed e => Failed e
  | Built s =>
      Built (s, TorchAttrs (arg_workers a) (arg_use_multiprocessing a) None None)
  end.

(** [ThreadPoolExecutor(max_workers=n)] refuses [n <= 0]. *)
Definition start_executor : M tworld unit :=
  fun t =>
    let n := Z.min (_batch_size (self t.1)) (workers t.2) in
    if decide (n <= 0) then Exc ValueError t
    else Ret tt (t.1, TorchAttrs (workers t.2) (use_multiprocessing t.2)
                        (Some n) (_batch_postprocessors t.2)).

(** A submitted task: not finished yet, finished with a result, or
    finished by raising. *)
Inductive future (B : Type) : Type :=
| Pending
| Done (b : B)
| Raised (e : exn).
Arguments Pending {B}.
Arguments Done {B} b.
Arguments Raised {B} e.

(** The workers of the pool.  [Executor.map] submits one task per item,
    task [i] for item [i]; the tasks finish in the order [completion],
    each running [function] on the shared state and filling its own
    future.  Tasks are taken as atomic steps on the shared state. *)
Fixpoint run_workers {S A B} (function : A -> M S B) (data : list A)
    (completion : list nat) (futures : list (future B)) (s : S)
  : list (future B) * S :=
  match completion with
  | [] => (futures, s)
  | i :: later =>
      match data !! i with
      | None => run_workers function data later futures s
      | Some x =>
          match function x s with
          | Ret b s' => run_workers function data later (<[i := Done b]> futures) s'
          | Exc e s' => run_workers function data later (<[i := Raised e]> futures) s'
          end
      end
  end.

(** [ThreadExecutor.__call__]: the futures of [self._executor.map(function,
    data)], in the order of [data]. *)
Definition ThreadExecutor_call {S A B} (function : A -> M S B) (data : list A)
    (completion : list nat) (s : S) : list (future B) * S :=
  run_workers function data completion (replicate (length data) Pending) s.

(** The loop of lines 86-90 over the results, taken in the order of the
    futures.  A future that raised re-raises there; one that never
    finishes blocks the loop for ever ([None]). *)
Fixpoint join_batch {S} (results : list (future (val * val)))
    (acc : list val * list val) (s : S)
  : option (outcome S (list val * list val)) :=
  match results with
  | [] => Some (Ret acc s)
  | Pending :: _ => None
  | Raised e :: _ => Some (Exc e s)
  | Done r :: rest =>
      if is_None r.1 || is_None r.2 then join_batch rest acc s
      else join_batch rest (acc.1 ++ [r.1], acc.2 ++ [r.2]) s
  end.

(** [for p in postprocessors: batch_data, batch_annotations = p(...)]. *)
Fixpoint run_postprocessors (ps : list postprocessor) (b : bval * bval)
  : M heap (bval * bval) :=
  match ps with
  | [] => ret b
  | p :: rest => b' <~ p b.1 b.2 ;; run_postprocessors rest b'
  end.

(** Lines 92-98. *)
Definition finish_batch (acc : list val * list val) : M tworld (bval * bval) :=
  t <~ get ;;
  match _batch_postprocessors t.2 with
  | None => raise AttributeError
  | Some (Some (p :: ps)) =>
      on_base (on_objs (run_postprocessors (p :: ps) (BList acc.1, BList acc.2)))
  | Some _ => ret (np_array acc.1, np_array acc.2)
  end.

(** Lines 80-90: the descriptors of the batch, the pool, the join. *)
Definition pooled_join (completion : list nat) (index : Z) (t : tworld)
  : option (outcome tworld (list val * list val)) :=
  match on_base (on_self (get_batch_annotations index)) t with
  | Exc e t1 => Some (Exc e t1)
  | Ret dataset_batch t1 =>
      match (match _executor t1.2 with
             | Some _ => ret tt
             | None => start_executor
             end) t1 with
      | Exc e t2 => Some (Exc e t2)
      | Ret _ t2 =>
          let '(results, t3) :=
            ThreadExecutor_call (fun d => on_base (process_data d))
              dataset_batch completion t2 in
          join_batch results ([], []) t3
      end
  end.

(** The pooled [__getitem__], for the completion order [completion]. *)
Definition __getitem__ (completion : list nat) (index : Z) (t : tworld)
  : option (outcome tworld (bval * bval)) :=
  match pooled_join completion index t with
  | None => None
  | Some (Exc e t') => Some (Exc e t')
  | Some (Ret acc t') => Some (finish_batch acc t')
  end.

End torch.

(** ** Vocabulary of the properties *)

(** [n] is the ceiling of the quotient [N / d], stated without
    division. *)
Definition ceiling_of_quotient (n N d : Z) : Prop :=
  (0 < d -> (n - 1) * d < N <= n * d) /\
  (d < 0 -> n * d <= N < (n - 1) * d).




(** The attributes that make up a provider's configuration. *)
Definition same_configuration (s s' : DataProvider) : Prop :=
  _batch_size s' = _batch_size s /\
  _shuffle s' = _shuffle s /\
  _epoch s' = _epoch s /\
  _use_cache s' = _use_cache s /\
  _skip_validation s' = _skip_validation s /\
  _limit s' = _limit s /\
  _step s' = _step s /\
  _data_preprocessors s' = _data_preprocessors s /\
  _augmentors s' = _augmentors s /\
  _transformers s' = _transformers s.

(** What a stage-list attribute holds once the conforming stages [kept]
    have been appended: an absent list stays absent when nothing is
    appended. *)
Definition appended (registered : option (list callable)) (kept : list callable)
  : option (list callable) :=
  match registered, kept with
  | None, [] => None
  | _, _ => Some (default [] registered ++ kept)
  end.




(** The heap [h'] extends [h] and differs from it at most at the objects
    among [roots]. *)
Definition touches_only (roots : list val) (h h' : heap) : Prop :=
  (length h <= length h')%nat /\
  forall l, (l < length h)%nat -> VRef l ∉ roots -> h' !! l = h !! l.

(** The objects of the pair [q] are live in [h'], and those that already
    existed in [h] are among [roots]. *)
Definition returns_within (roots : list val) (h h' : heap) (q : val * val)
  : Prop :=
  forall l, q.1 = VRef l \/ q.2 = VRef l ->
    (l < length h')%nat /\ ((l < length h)%nat -> VRef l ∈ roots).

(** The outcome of a run from [h] that reached the heap through [roots]
    only: it may have allocated, it may have mutated the objects among
    [roots], and what it returns is new or among [roots]. *)
Definition local_run (roots : list val) (h : heap)
    (out : outcome heap (val * val)) : Prop :=
  match out with
  | Ret q h' => touches_only roots h h' /\ returns_within roots h h' q
  | Exc _ h' => touches_only roots h h'
  end.

(** The objects of a pair are live. *)
Definition live (h : heap) (q : val * val) : Prop :=
  forall l, q.1 = VRef l \/ q.2 = VRef l -> (l < length h)%nat.

(** A stage that reaches the heap through its two arguments only. *)
Definition local_stage (f : callable) : Prop :=
  forall d a h, live h (d, a) -> local_run [d; a] h (call f d a h).

Definition local_stages (o : option (list callable)) : Prop :=
  forall stages, o = Some stages -> Forall local_stage stages.

Definition local_provider (s : DataProvider) : Prop :=
  Forall local_stage (_data_preprocessors s) /\
  local_stages (_augmentors s) /\
  local_stages (_transformers s).

(** The object at [l] belongs to a cache entry. *)
Definition cached (c : gmap val (val * val)) (l : loc) : Prop :=
  exists k e, c !! k = Some e /\ (e.1 = VRef l \/ e.2 = VRef l).

(** The cache owns its objects: they are live, and none of them is among
    the values [public] that code outside the cache holds; the public
    objects are live too. *)
Definition isolated (public : list val) (w : world) : Prop :=
  (forall l, cached (_cache (self w)) l ->
     (l < length (objs w))%nat /\ VRef l ∉ public) /\
  (forall l, VRef l ∈ public -> (l < length (objs w))%nat).

(** Every entry of the cache of [w] is still an entry in [w'], made of
    the same objects with the same content. *)
Definition cache_kept (w w' : world) : Prop :=
  forall k e, _cache (self w) !! k = Some e ->
    _cache (self w') !! k = Some e /\
    forall l, e.1 = VRef l \/ e.2 = VRef l -> objs w' !! l = objs w !! l.

(** The content a value stands for: the object behind a reference. *)
Definition deref (h : heap) (v : val) : option pyobj :=
  match v with
  | VRef l => h !! l
  | _ => None
  end.

(** [v'] is an independent copy of [v]: the same immutable value, or a
    new object, allocated at or after [bound], with the content of the
    original. *)
Definition copy_of (bound : nat) (h h' : heap) (v v' : val) : Prop :=
  match v with
  | VRef l =>
      exists l', v' = VRef l' /\ (bound <= l')%nat /\ l' <> l /\
                 is_Some (h' !! l') /\ h' !! l' = h !! l
  | _ => v' = v
  end.

(** The values held by the rows of a dataset. *)
Definition dataset_values (ds : list descriptor) : list val :=
  ds ≫= (fun d => [d.1; d.2]).

(** The heap part of [finish_sample], for given stage lists. *)
Definition finish_objs (augmentors transformers : option (list callable))
    (p : val * val) : M heap (val * val) :=
  p <~ run_stage_list augmentors p ;;
  p <~ run_stage_list transformers p ;;
  data <~ data_to_numpy p.1 ;;
  annotation <~ annotation_to_numpy p.2 ;;
  ret (data, annotation).

(** The provider once [batch_data] has been marked for removal. *)
Definition mark_for_removal (batch_data : descriptor) (s : DataProvider)
  : DataProvider :=
  set_on_epoch_end_remove (_on_epoch_end_remove s ++ [batch_data])
    (log WARNING "Data or annotation is None, marking for removal on epoch end." s).

(** The sample is not served from the cache: caching is off, or its key
    is not in the cache. *)
Definition not_cached (batch_data : descriptor) (w : world) : Prop :=
  _use_cache (self w) = false \/
  (hashable (objs w) batch_data.1 = true /\
   _cache (self w) !! batch_data.1 = None).

(** A null data or a null annotation. *)
Definition null_sample (p : val * val) : Prop := p.1 = VNone \/ p.2 = VNone.

(** The attributes [process_data] leaves alone. *)
Definition same_pipeline (s s' : DataProvider) : Prop :=
  _dataset s' = _dataset s /\
  _data_preprocessors s' = _data_preprocessors s /\
  _augmentors s' = _augmentors s /\
  _transformers s' = _transformers s /\
  _use_cache s' = _use_cache s /\
  _batch_size s' = _batch_size s.

(** Membership goals over appended and consed lists. *)
Ltac list_membership :=
  cbn; rewrite ?elem_of_app, ?elem_of_cons, ?elem_of_app, ?elem_of_nil; tauto.

(** ** Sample pipelines *)

Definition row (path label : string) : descriptor := (VStr path, VStr label).

(** A reader: decodes an existing file into a new array, and yields the
    null pair for the file that cannot be read. *)
Definition read_array : callable :=
  Callable false false (fun data annotation h =>
    match data with
    | VStr path =>
        if String.eqb path "missing.bin" then Ret (VNone, VNone) h
        else Ret (VRef (length h), annotation)
               (h ++ [PyObj KNdarray [Z.of_nat (String.length path)]])
    | _ => Exc (StageError 1) h
    end).

(** A stage that yields the null pair for every sample. *)
Definition drop_all : callable :=
  Callable false false (fun _ _ h => Ret (VNone, VNone) h).

(** A stage that builds a sample from nothing. *)
Definition fill_in : callable :=
  Callable false false (fun _ _ h =>
    Ret (VRef (length h), VInt 0) (h ++ [PyObj KNdarray []])).

(** An augmentor that brightens the data array in place. *)
Definition brighten : callable :=
  Callable true false (fun data annotation h =>
    match data with
    | VRef l =>
        match h !! l with
        | Some o => Ret (data, annotation) (<[l := PyObj (kind o) (Z.succ <$> payload o)]> h)
        | None => Exc (StageError 2) h
        end
    | _ => Ret (data, annotation) h
    end).

(** A transformer that leaves the sample as it is. *)
Definition keep_shape : callable :=
  Callable false true (fun data annotation h => Ret (data, annotation) h).

(** A provider with the given dataset, preprocessors, batch size and
    cache switch; no shuffling, nothing cached or marked yet. *)
Definition provider_of (dataset : list descriptor) (preprocessors : list callable)
    (batch_size : Z) (use_cache : bool) : DataProvider :=
  mkDataProvider dataset preprocessors batch_size false 1 (Some []) (Some [])
    true None use_cache 0 ∅ [] [].

Definition world_of (s : DataProvider) : world := World [] [] s.

Definition seven_rows : list descriptor :=
  [row "0.bin" "a"; row "1.bin" "b"; row "2.bin" "c"; row "3.bin" "d";
   row "4.bin" "e"; row "5.bin" "f"; row "6.bin" "g"].

Definition seven_by_three : DataProvider := provider_of seven_rows [read_array] 3 false.

Definition three_rows : list descriptor :=
  [row "a.bin" "cat"; row "b.bin" "dog"; row "missing.bin" "fox"].

(** Which of the sample files exist. *)
Definition sample_files : filesystem :=
  Filesystem (fun path => bool_decide (path ∈ ["a.bin"; "b.bin"; "data"]))
             (fun _ => false).

(** A caching provider whose augmentor works in place. *)
Definition caching_provider : DataProvider :=
  set_augmentors (Some [brighten]) (provider_of three_rows [read_array] 2 true).

(** A provider whose first preprocessor yields the null pair and whose
    second one builds a sample all the same. *)
Definition refilling_provider : DataProvider :=
  provider_of [row "a.bin" "cat"] [drop_all; fill_in] 1 false.

(** A provider whose first preprocessor yields the null pair and whose
    second one, the reader, does not accept it. *)
Definition strict_provider : DataProvider :=
  provider_of [row "a.bin" "cat"] [drop_all; read_array] 1 false.


(** The pooled provider over the three rows: four workers, no pool yet,
    no batch postprocessors. *)
Definition pooled_world : torch.tworld :=
  (world_of (provider_of three_rows [read_array] 3 false),
   torch.TorchAttrs 4 false None (Some None)).


(** The construction of a pooled provider with one batch postprocessor. *)
Definition pooled_args : torch.torch_init_args :=
  torch.TorchInitArgs
    (InitArgs three_rows (Some [read_array]) 2 false 1 None None true None false)
    (Some [fun data annotations h => Ret (data, annotations) h]) 4 false.

(** ** Iteration *)

(** The built-in [len(self)]: the result of [__len__], which must not be
    negative. *)
Definition py_len : M DataProvider Z :=
  n <~ __len__ ;;
  if decide (n < 0) then raise ValueError else ret n.

(** [__iter__], consumed to its end: [range(len(self))] is evaluated
    once, when the iteration starts, and the batches are then requested in
    order. *)
Definition __iter__ : M world (list (bval * bval)) :=
  n <~ on_self py_len ;;
  mapM_state __getitem__ (py_range 0 n).


(** The slice of [size] rows that starts at row [start]. *)
Definition rows_from (start size : nat) (ds : list descriptor) : list descriptor :=
  take size (drop start ds).

(** The attributes that neither [process_data] nor a batch request
    changes: the pipeline, the epoch and the shuffle switch. *)
Definition same_run (s s' : DataProvider) : Prop :=
  same_pipeline s s' /\ _epoch s' = _epoch s /\ _shuffle s' = _shuffle s.


(** ** Further samples *)

(** The three rows in batches of two, read without a cache. *)
Definition three_by_two : DataProvider := provider_of three_rows [read_array] 2 false.



(** A pooled provider that is asked for no worker at all. *)
Definition idle_pool : torch.tworld :=
  (world_of three_by_two, torch.TorchAttrs 0 false None (Some None)).

(** A pooled provider, its pool started, whose first row the reader
    rejects. *)
Definition failing_pool : torch.tworld :=
  (world_of (provider_of [(VInt 7, VStr "owl"); row "a.bin" "cat"]
               [read_array] 2 false),
   torch.TorchAttrs 2 false (Some 2) (Some None)).

(** A caching provider over one row that is keyed by an array. *)
Definition array_keyed_world : world :=
  World [PyObj KNdarray [1; 2]] []
    (provider_of [(VRef 0, VStr "owl")] [read_array] 1 true).

(** ** Comparing runs up to the log *)

(** The provider with its log put aside. *)
Definition without_log (s : DataProvider) : DataProvider :=
  mkDataProvider (_dataset s) (_data_preprocessors s) (_batch_size s)
    (_shuffle s) (_epoch s) (_augmentors s) (_transformers s)
    (_skip_validation s) (_limit s) (_use_cache s) (_step s) (_cache s)
    (_on_epoch_end_remove s) [].

(** Two worlds that differ at most in what was logged. *)
Definition same_but_log (w w' : world) : Prop :=
  objs w' = objs w /\ np_random w' = np_random w /\
  without_log (self w') = without_log (self w).


(** ** Copies of a provider *)

(** The objects a value refers to are on the heap. *)
Definition live_val (h : heap) (v : val) : Prop :=
  forall l, v = VRef l -> (l < length h)%nat.

(** Every object the provider refers to, from its dataset, its removal
    list or its cache, keys included, is on the heap. *)
Definition provider_live (w : world) : Prop :=
  Forall (live (objs w)) (_dataset (self w)) /\
  Forall (live (objs w)) (_on_epoch_end_remove (self w)) /\
  forall k e, _cache (self w) !! k = Some e ->
    live_val (objs w) k /\ live (objs w) e.

(** The state of a deep copy of objects of [h0]: the heap has only grown
    since [h0], and the memo sends objects of [h0] to new objects with the
    same content. *)
Definition memo_copies (h0 : heap) (st : heap * gmap loc loc) : Prop :=
  touches_only [] h0 st.1 /\
  forall l l', st.2 !! l = Some l' ->
    (l < length h0)%nat /\ (length h0 <= l' < length st.1)%nat /\
    st.1 !! l' = h0 !! l.

(** [r'] is a copy of the row [r]. *)
Definition row_copy (h0 h : heap) (r r' : val * val) : Prop :=
  copy_of (length h0) h0 h r.1 r'.1 /\ copy_of (length h0) h0 h r.2 r'.2.

(** [e'] is a copy of the cache item [e], key and entry. *)
Definition entry_copy (h0 h : heap) (e e' : val * (val * val)) : Prop :=
  copy_of (length h0) h0 h e.1 e'.1 /\ row_copy h0 h e.2 e'.2.


(** A caching provider that holds one cached sample. *)
Definition cached_world : world :=
  World [PyObj KNdarray [5]] []
    (set_cache {[ VStr "a.bin" := (VRef 0, VStr "cat") ]} caching_provider).


(** * Properties *)

(** ** Batch count and batch slices *)

Section Batches.

Implicit Types (p : DataProvider) (ds : list descriptor).

Lemma Qceiling_quotient (N d : Z) :
  d <> 0 -> ceiling_of_quotient (Qceiling (inject_Z N / inject_Z d)) N d.
Proof.
  intros Hd. unfold ceiling_of_quotient.
  destruct d as [|q|q]; [lia| |];
    unfold Qceiling, Qfloor, Qdiv, Qmult, Qinv, Qopp, inject_Z; simpl;
    rewrite Pos.mul_1_l.
  - split; [intros _|lia]. rewrite Z.mul_1_r.
    pose proof (Z.div_mod (- N) (Z.pos q) ltac:(lia)).
    pose proof (Z.mod_pos_bound (- N) (Z.pos q) ltac:(lia)). nia.
  - split; [lia|intros _].
    replace (- (N * -1)) with N by lia.
    pose proof (Z.div_mod N (Z.pos q) ltac:(lia)).
    pose proof (Z.mod_pos_bound N (Z.pos q) ltac:(lia)). nia.
Qed.

Lemma len_value p :
  _batch_size p <> 0 ->
  __len__ p = Ret (Qceiling (inject_Z (Z.of_nat (length (_dataset p)))
                             / inject_Z (_batch_size p))) p.
Proof.
  intros Hb. unfold __len__, bind, get, ret.
  destruct (decide (_batch_size p = 0)); [contradiction|reflexivity].
Qed.

Lemma len_zero_batch_size p :
  _batch_size p = 0 -> __len__ p = Exc ZeroDivisionError p.
Proof.
  intros Hb. unfold __len__, bind, get, raise.
  destruct (decide (_batch_size p = 0)); [reflexivity|contradiction].
Qed.

(** [range] filtered by the dataset bound is the clipped range. *)
Lemma filter_range_clip (N a : Z) (m : nat) :
  filter (fun i => i < N) ((fun k : nat => a + Z.of_nat k) <$> seq 0 m)
  = (fun k : nat => a + Z.of_nat k) <$> seq 0 (Nat.min m (Z.to_nat (N - a))).
Proof.
  induction m as [|m IH]; [reflexivity|].
  rewrite seq_S, fmap_app, filter_app, IH.
  change ((fun k : nat => a + Z.of_nat k) <$> [(0 + m)%nat])
    with [a + Z.of_nat m].
  destruct (decide (a + Z.of_nat m < N)) as [Hlt|Hge].
  - rewrite filter_cons_True, filter_nil by exact Hlt.
    replace (Nat.min m (Z.to_nat (N - a))) with m by lia.
    replace (Nat.min (S m) (Z.to_nat (N - a))) with (S m) by lia.
    rewrite seq_S, fmap_app. reflexivity.
  - rewrite filter_cons_False, filter_nil, app_nil_r by exact Hge.
    f_equal. f_equal. lia.
Qed.

Lemma index_run ds (a : Z) (m : nat) :
  0 <= a -> (Z.to_nat a + m <= length ds)%nat ->
  mapM (py_index ds) ((fun k : nat => a + Z.of_nat k) <$> seq 0 m)
  = Some (take m (drop (Z.to_nat a) ds)).
Proof.
  intros Ha Hle. apply mapM_Some_2.
  apply Forall2_same_length_lookup_2.
  - rewrite length_fmap, length_seq, length_take, length_drop. lia.
  - intros i x y Hx Hy.
    rewrite list_lookup_fmap in Hx.
    destruct (seq 0 m !! i) as [k|] eqn:Hk; [|discriminate].
    apply lookup_seq in Hk as [-> Hi]. simpl in Hx. injection Hx as <-.
    unfold py_index. destruct (decide (0 <= a + Z.of_nat i)); [|lia].
    rewrite lookup_take_lt, lookup_drop in Hy by lia.
    rewrite <- Hy. f_equal. lia.
Qed.

Lemma get_batch_annotations_slice p (i : Z) :
  0 <= i -> 0 <= _batch_size p ->
  get_batch_annotations i p
  = Ret (take (Z.to_nat (_batch_size p))
           (drop (Z.to_nat (i * _batch_size p)) (_dataset p)))
        (set_step i p).
Proof.
  intros Hi Hb.
  unfold get_batch_annotations, bind, modify, get, ret, py_range. simpl.
  set (ds := _dataset p). set (b := _batch_size p) in *.
  rewrite filter_range_clip.
  replace (i * b + b - i * b) with b by lia.
  destruct (decide (Z.of_nat (length ds) <= i * b)) as [Hout|Hin].
  - replace (Nat.min (Z.to_nat b) (Z.to_nat (Z.of_nat (length ds) - i * b)))
      with 0%nat by lia.
    simpl. rewrite drop_ge by lia. rewrite take_nil. reflexivity.
  - rewrite index_run by nia. cbn. f_equal.
    set (k := Z.to_nat (Z.of_nat (length ds) - i * b)).
    assert (length (drop (Z.to_nat (i * b)) ds) <= k)%nat
      by (rewrite length_drop; lia).
    destruct (decide (Z.to_nat b <= k)%nat).
    + f_equal. lia.
    + rewrite !take_ge by lia. reflexivity.
Qed.


(** C7: for a batch index [i] with [0 <= i < length()], the batch is the
    contiguous slice of [batch_size] descriptors starting at
    [i * batch_size], cut at the end of the dataset, and [i] is recorded
    as the step; with batch size 3 and 7 descriptors, batch 2 is the
    single descriptor at position 6. *)
Theorem get_batch_contiguous_slice p (i n : Z) :
  __len__ p = Ret n p -> 0 <= i < n ->
  let lo := Z.to_nat (i * _batch_size p) in
  let hi := Nat.min (lo + Z.to_nat (_batch_size p)) (length (_dataset p)) in
  (lo < hi)%nat /\
  get_batch_annotations i p
  = Ret (take (hi - lo) (drop lo (_dataset p))) (set_step i p) /\
  (_batch_size p = 3 -> length (_dataset p) = 7%nat -> i = 2 ->
   n = 3 /\ lo = 6%nat /\ hi = 7%nat /\
   exists d, _dataset p !! 6%nat = Some d /\
             get_batch_annotations i p = Ret [d] (set_step i p)).
Proof.
  intros Hlen Hi lo hi.
  destruct (decide (_batch_size p = 0)) as [Hz|Hnz].
  { rewrite len_zero_batch_size in Hlen by exact Hz. discriminate. }
  rewrite len_value in Hlen by exact Hnz. injection Hlen as Hn.
  pose proof (Qceiling_quotient (Z.of_nat (length (_dataset p)))
                (_batch_size p) Hnz) as [Hpos Hneg].
  rewrite Hn in Hpos, Hneg.
  assert (0 < _batch_size p) as Hb by nia.
  specialize (Hpos Hb). clear Hneg.
  assert (i * _batch_size p < Z.of_nat (length (_dataset p))) as Hin by nia.
  assert (Hslice : get_batch_annotations i p
                   = Ret (take (hi - lo) (drop lo (_dataset p))) (set_step i p)).
  { rewrite get_batch_annotations_slice by lia. f_equal.
    fold lo.
    assert (length (drop lo (_dataset p)) = length (_dataset p) - lo)%nat
      by apply length_drop.
    destruct (decide (lo + Z.to_nat (_batch_size p) <= length (_dataset p))%nat).
    - f_equal. lia.
    - rewrite !take_ge by lia. reflexivity. }
  split; [subst lo hi; nia|]. split; [exact Hslice|].
  intros H3 H7 ->. 
  assert (n = 3) by nia. 
  assert (lo = 6%nat) by (subst lo; rewrite H3; reflexivity).
  assert (hi = 7%nat) by (subst hi; rewrite H3, H7; lia).
  repeat split; try assumption.
  destruct (lookup_lt_is_Some_2 (_dataset p) 6) as [d Hd]; [lia|].
  exists d. split; [exact Hd|]. rewrite Hslice. f_equal.
  replace (hi - lo)%nat with 1%nat by lia.
  replace lo with 6%nat by lia.
  rewrite (drop_S _ d 6 Hd). reflexivity.
Qed.

End Batches.

(** ** Epoch end: shuffling and deferred removal *)

Section EpochEnd.

Lemma swap_Permutation {A} (i j : nat) (l : list A) : swap i j l ≡ₚ l.
Proof.
  unfold swap.
  destruct (l !! i) as [x|] eqn:Hi; [|reflexivity].
  destruct (l !! j) as [y|] eqn:Hj; [|reflexivity].
  apply (Permutation_insert_swap l j i y x Hj Hi).
Qed.

(** The shuffle always returns, with a rearrangement of its input. *)
Lemma shuffle_down_Permutation {A} (i : nat) (l : list A) (tape : list nat) :
  exists l' tape', shuffle_down i l tape = Ret l' tape' /\ l' ≡ₚ l.
Proof.
  revert l tape. induction i as [|i IH]; intros l tape.
  - exists l, tape. split; reflexivity.
  - cbn [shuffle_down]. unfold bind.
    destruct tape as [|x tape]; cbn [random_below].
    + destruct (IH (swap (S i) 0 l) []) as (l' & tape' & -> & Hp).
      exists l', tape'. split; [reflexivity|].
      rewrite Hp. apply swap_Permutation.
    + destruct (IH (swap (S i) (x mod S (S i)) l) tape) as (l' & tape' & -> & Hp).
      exists l', tape'. split; [reflexivity|].
      rewrite Hp. apply swap_Permutation.
Qed.

Lemma np_random_shuffle_Permutation {A} (l : list A) (tape : list nat) :
  exists l' tape', np_random_shuffle l tape = Ret l' tape' /\ l' ≡ₚ l.
Proof. apply shuffle_down_Permutation. Qed.







End EpochEnd.

(** ** Validation *)

Section Validate.

Variable fs : filesystem.




End Validate.

(** ** Splitting *)

Section Split.

Lemma same_configuration_set_dataset ds s s' :
  same_configuration s s' -> same_configuration s (set_dataset ds s').
Proof. exact id. Qed.










End Split.

(** ** Registering stages through the property setters *)

Section Setter.

Variable isinstance : callable -> bool.
Variable attr : DataProvider -> option (list callable).
Variable set_attr : option (list callable) -> DataProvider -> DataProvider.
Variable warning : string.

Hypothesis attr_set : forall a s, attr (set_attr a s) = a.
Hypothesis attr_log : forall l m s, attr (log l m s) = attr s.
Hypothesis logger_set : forall a s, logger (set_attr a s) = logger s.


Lemma appended_step (o : option (list callable)) (x : callable) kept :
  appended (match o with
            | Some registered => Some (registered ++ [x])
            | None => Some [x]
            end) kept
  = appended o (x :: kept).
Proof.
  destruct o as [registered|]; cbn.
  - destruct kept; cbn; by rewrite <- ?app_assoc.
  - by destruct kept.
Qed.

(** Assigning another list: the loop ends after one step per item. *)
Lemma register_stages_other (rest pre : list callable) (s : DataProvider)
    (fuel : nat) :
  (length rest < fuel)%nat ->
  exists s',
    register_stages fuel isinstance attr set_attr warning
      (OtherObject (pre ++ rest)) (length pre) s = Some (Ret tt s') /\
    attr s' = appended (attr s) (filter (fun c => isinstance c = true) rest) /\
    logger s' = logger s ++ ((fun _ => (WARNING, warning)) <$> filter (fun c => isinstance c = false) rest).
Proof.
  revert pre s fuel. induction rest as [|x rest IH]; intros pre s fuel Hfuel.
  - destruct fuel as [|fuel]; [cbn in Hfuel; lia|]. exists s.
    cbn [register_stages assigned_items]. rewrite app_nil_r.
    rewrite lookup_ge_None_2 by lia. split; [reflexivity|].
    split; [destruct (attr s); cbn; by rewrite ?app_nil_r|].
    cbn. by rewrite app_nil_r.
  - destruct fuel as [|fuel]; [cbn in Hfuel; lia|].
    cbn [register_stages assigned_items].
    rewrite lookup_app_r, Nat.sub_diag by lia. cbn [lookup list_lookup].
    replace (pre ++ x :: rest) with ((pre ++ [x]) ++ rest)
      by (by rewrite <- app_assoc).
    replace (S (length pre)) with (length (pre ++ [x]))
      by (rewrite length_app; cbn; lia).
    destruct (isinstance x) eqn:Hx.
    + edestruct (IH (pre ++ [x])) as (s' & -> & Ha & Hl);
        [cbn in Hfuel; lia|].
      exists s'. split; [reflexivity|]. split.
      * rewrite Ha. destruct (attr s) as [registered|]; rewrite attr_set;
          rewrite filter_cons_True by exact Hx.
        -- apply (appended_step (Some registered)).
        -- apply (appended_step None).
      * rewrite Hl. rewrite (filter_cons_False (fun c => isinstance c = false)) by congruence.
        by destruct (attr s); rewrite logger_set.
    + edestruct (IH (pre ++ [x])) as (s' & -> & Ha & Hl);
        [cbn in Hfuel; lia|].
      exists s'. split; [reflexivity|]. split.
      * rewrite Ha, attr_log.
        by rewrite filter_cons_False by congruence.
      * rewrite Hl. rewrite (filter_cons_True (fun c => isinstance c = false)) by exact Hx.
        cbn. by rewrite <- app_assoc.
Qed.

(** Assigning the provider's own list: as long as conforming stages are
    ahead of the iterator the list grows as fast as the iterator moves,
    and the loop does not end. *)
Lemma register_stages_same (fuel : nat) (i : nat) (s : DataProvider)
    (registered : list callable) :
  attr s = Some registered ->
  Forall (fun c => isinstance c = true) registered ->
  (i < length registered)%nat ->
  register_stages fuel isinstance attr set_attr warning SameObject i s = None.
Proof.
  revert i s registered.
  induction fuel as [|fuel IH]; intros i s registered Ha Hall Hi; [reflexivity|].
  cbn [register_stages assigned_items]. rewrite Ha.
  destruct (lookup_lt_is_Some_2 registered i Hi) as [x Hx]. rewrite Hx.
  assert (isinstance x = true) as ->
    by (eapply (Forall_lookup_1 (fun c => isinstance c = true)); eauto).
  apply (IH _ _ (registered ++ [x])).
  - apply attr_set.
  - apply Forall_app. split; [exact Hall|].
    apply Forall_singleton. eapply (Forall_lookup_1 (fun c => isinstance c = true)); eauto.
  - rewrite length_app. cbn. lia.
Qed.

End Setter.

(** C10 (amended): assigning a list other than the provider's own stage
    list to [augmentors] (resp. [transformers]) returns, with every
    element that is an Augmentor (resp. Transformer) appended, in order,
    after the stages already registered, and one warning logged for every
    other element, which is dropped. *)
Theorem setters_append_conforming (items : list callable) (s : DataProvider)
    (fuel : nat) :
  (length items < fuel)%nat ->
  (exists s',
     augmentors_setter fuel (OtherObject items) s = Some (Ret tt s') /\
     _augmentors s'
     = appended (_augmentors s) (filter (fun c => is_Augmentor c = true) items) /\
     logger s'
     = logger s ++ ((fun _ => (WARNING, "Augmentor is not an instance of Augmentor."))
                    <$> filter (fun c => is_Augmentor c = false) items)) /\
  (exists s',
     transformers_setter fuel (OtherObject items) s = Some (Ret tt s') /\
     _transformers s'
     = appended (_transformers s) (filter (fun c => is_Transformer c = true) items) /\
     logger s'
     = logger s ++ ((fun _ => (WARNING, "Transformer is not an instance of Transformer."))
                    <$> filter (fun c => is_Transformer c = false) items)).
Proof.
  intros Hfuel. split.
  - apply (register_stages_other is_Augmentor _augmentors set_augmentors _
             (fun _ _ => eq_refl) (fun _ _ _ => eq_refl) (fun _ _ => eq_refl)
             items [] s fuel Hfuel).
  - apply (register_stages_other is_Transformer _transformers set_transformers _
             (fun _ _ => eq_refl) (fun _ _ _ => eq_refl) (fun _ _ => eq_refl)
             items [] s fuel Hfuel).
Qed.

(** ** Construction *)

Lemma super_keywords_do_not_bind :
  binds DataProvider_init_params 0 torch.super_init_keywords = false.
Proof. vm_compute. reflexivity. Qed.

Lemma validate_call_does_not_bind : binds validate_params 3 [] = false.
Proof. vm_compute. reflexivity. Qed.

(** With validation switched on, the base constructor stops at its call
    of [validate], which passes one argument too many. *)
Lemma init_with_validation (fs : filesystem) (keywords : list string)
    (a : init_args) :
  arg_skip_validation a = false -> __init__ fs keywords a = Failed TypeError.
Proof.
  intros Hskip. unfold __init__.
  destruct (negb (binds DataProvider_init_params 0 keywords)); [reflexivity|].
  rewrite Hskip, validate_call_does_not_bind. reflexivity.
Qed.

(** C4: the pooled provider cannot be constructed.  Its [__init__] hands
    [batch_postprocessors] to the base [__init__], whose signature has no
    such parameter, so every construction raises TypeError before any
    attribute is set and no batch is ever postprocessed. *)
Theorem torch_init_raises (fs : filesystem) (a : torch.torch_init_args) :
  torch.__init__ fs a = Failed TypeError.
Proof.
  unfold torch.__init__, __init__.
  rewrite super_keywords_do_not_bind. reflexivity.
Qed.

(** The same at a sample construction with one batch postprocessor. *)
Example pooled_construction_fails :
  torch.__init__ sample_files pooled_args = Failed TypeError.
Proof. vm_compute. reflexivity. Qed.

(** On an instance that did have the attribute, [__getitem__] would hand
    the two joined lists to the postprocessors, in order, and return what
    the last one returns. *)
Lemma finish_batch_postprocesses (acc : list val * list val)
    (p : torch.postprocessor) (ps : list torch.postprocessor) (t : torch.tworld) :
  torch._batch_postprocessors t.2 = Some (Some (p :: ps)) ->
  torch.finish_batch acc t
  = torch.on_base (on_objs (torch.run_postprocessors (p :: ps)
                              (BList acc.1, BList acc.2))) t.
Proof.
  intros Hattr. unfold torch.finish_batch, bind, get. by rewrite Hattr.
Qed.

(** While the attribute is missing, the line that reads it raises. *)
Lemma finish_batch_without_attribute (acc : list val * list val) (t : torch.tworld) :
  torch._batch_postprocessors t.2 = None ->
  torch.finish_batch acc t = Exc AttributeError t.
Proof.
  intros Hattr. unfold torch.finish_batch, bind, get, raise. by rewrite Hattr.
Qed.

(** ** The pooled batch assembler *)

Section Pool.

Context {S A B : Type}.
Variable function : A -> M S B.
Variable data : list A.



End Pool.





(** ** Locality of the pipeline stages *)

Section Locality.

Implicit Types (h : heap) (roots : list val) (q : val * val).

Lemma touches_only_refl roots h : touches_only roots h h.
Proof. split; [lia|reflexivity]. Qed.

Lemma touches_only_alloc roots h (o : pyobj) : touches_only roots h (h ++ [o]).
Proof.
  split; [rewrite length_app; cbn; lia|].
  intros l Hl _. by apply lookup_app_l.
Qed.

(** Two steps in a row: the second may touch what the first returned. *)
Lemma touches_only_step roots roots' h h1 h2 :
  touches_only roots h h1 ->
  touches_only roots' h1 h2 ->
  (forall l, (l < length h)%nat -> VRef l ∈ roots' -> VRef l ∈ roots) ->
  touches_only roots h h2.
Proof.
  intros [Hlen1 H1] [Hlen2 H2] Hsub. split; [lia|].
  intros l Hl Hroot. rewrite H2, H1; auto with lia.
Qed.

Lemma elem_of_pair_refs q l : VRef l ∈ [q.1; q.2] <-> q.1 = VRef l \/ q.2 = VRef l.
Proof.
  rewrite elem_of_cons, list_elem_of_singleton. split; intros [H|H]; auto.
Qed.

Lemma returns_within_roots q l h h' roots :
  returns_within roots h h' q -> (l < length h)%nat ->
  VRef l ∈ [q.1; q.2] -> VRef l ∈ roots.
Proof. intros Hq Hl Hin. apply (Hq l); [by apply elem_of_pair_refs|exact Hl]. Qed.

Lemma returns_within_live roots h h' q : returns_within roots h h' q -> live h' q.
Proof. intros Hq l Hl. by apply (Hq l). Qed.

Lemma local_run_ret h q : live h q -> local_run [q.1; q.2] h (Ret q h).
Proof.
  intros Hlive. split; [apply touches_only_refl|].
  intros l Hl. split; [by apply Hlive|]. intros _. by apply elem_of_pair_refs.
Qed.

(** Sequencing: a local run followed by a run local to its result. *)
Lemma local_run_bind roots h (m : M heap (val * val))
    (k : val * val -> M heap (val * val)) :
  local_run roots h (m h) ->
  (forall q h1, m h = Ret q h1 -> local_run [q.1; q.2] h1 (k q h1)) ->
  local_run roots h (bind m k h).
Proof.
  intros Hm Hk. unfold bind.
  destruct (m h) as [q h1|e h1] eqn:Hrun; [|exact Hm].
  destruct Hm as [Ht Hr]. specialize (Hk q h1 eq_refl).
  destruct (k q h1) as [r h2|e h2]; cbn in Hk |- *.
  - destruct Hk as [Ht2 Hr2]. split.
    + eapply touches_only_step; eauto using returns_within_roots.
    + intros l Hl. destruct (Hr2 l Hl) as [Hlive Hold]. split; [exact Hlive|].
      intros Hlh. eapply returns_within_roots; eauto.
      apply Hold. destruct Ht. lia.
  - eapply touches_only_step; eauto using returns_within_roots.
Qed.

Lemma run_stages_local (stages : list callable) q h :
  Forall local_stage stages -> live h q ->
  local_run [q.1; q.2] h (run_stages stages q h).
Proof.
  intros Hall. revert q h. induction Hall as [|f stages Hf _ IH]; intros q h Hlive.
  - by apply local_run_ret.
  - assert (live h (q.1, q.2)) as Hlive' by (by destruct q).
    cbn [run_stages]. apply local_run_bind; [by apply Hf|].
    intros q1 h1 Hrun. apply IH.
    pose proof (Hf q.1 q.2 h Hlive') as Hloc. rewrite Hrun in Hloc.
    eapply returns_within_live, Hloc.
Qed.

Lemma run_stage_list_local (o : option (list callable)) q h :
  local_stages o -> live h q ->
  local_run [q.1; q.2] h (run_stage_list o q h).
Proof.
  intros Hall Hlive. destruct o as [stages|]; cbn.
  - by apply run_stages_local; [apply Hall|].
  - apply touches_only_refl.
Qed.

(** [numpy()] allocates its result and touches nothing. *)
Lemma numpy_fresh (v : val) h :
  match numpy v h with
  | Ret v' h' => v' = VRef (length h) /\ exists o, h' = h ++ [o]
  | Exc _ h' => h' = h
  end.
Proof.
  unfold numpy. destruct v; try reflexivity.
  destruct (h !! l) as [[[] buf]|]; try reflexivity. eauto.
Qed.

(** A conversion to an array returns its argument or a new array. *)
Lemma data_to_numpy_cases (v : val) h :
  data_to_numpy v h = Ret v h \/
  (exists o, data_to_numpy v h = Ret (VRef (length h)) (h ++ [o])) \/
  (exists e, data_to_numpy v h = Exc e h).
Proof.
  unfold data_to_numpy, bind, get, ret.
  destruct (is_ndarray h v); [by left|]. right.
  pose proof (numpy_fresh v h) as Hn.
  destruct (numpy v h) as [v' h'|e h'].
  - destruct Hn as [-> [o ->]]. left. by exists o.
  - subst h'. right. by exists e.
Qed.

Lemma annotation_to_numpy_cases (v : val) h :
  annotation_to_numpy v h = Ret v h \/
  (exists o, annotation_to_numpy v h = Ret (VRef (length h)) (h ++ [o])) \/
  (exists e, annotation_to_numpy v h = Exc e h).
Proof.
  unfold annotation_to_numpy, bind, get, ret.
  destruct (is_array_or_scalar h v); [by left|]. right.
  pose proof (numpy_fresh v h) as Hn.
  destruct (numpy v h) as [v' h'|e h'].
  - destruct Hn as [-> [o ->]]. left. by exists o.
  - subst h'. right. by exists e.
Qed.

Lemma to_numpy_local q h :
  live h q ->
  local_run [q.1; q.2] h
    ((data <~ data_to_numpy q.1 ;;
      annotation <~ annotation_to_numpy q.2 ;;
      ret (data, annotation)) h).
Proof.
  intros Hlive. unfold bind at 1.
  destruct (data_to_numpy_cases q.1 h) as [->|[[o ->]|[e ->]]];
    [| |apply touches_only_refl]; unfold bind, ret.
  - destruct (annotation_to_numpy_cases q.2 h) as [->|[[o ->]|[e ->]]];
      [|
       |apply touches_only_refl].
    + destruct q. by apply local_run_ret.
    + split; [apply touches_only_alloc|].
      intros l [Hl|Hl]; cbn in Hl.
      * split; [rewrite length_app; cbn; specialize (Hlive l (or_introl Hl)); lia|].
        intros _. apply elem_of_pair_refs. by left.
      * injection Hl as <-. rewrite length_app. cbn. lia.
  - destruct (annotation_to_numpy_cases q.2 (h ++ [o])) as [->|[[o2 ->]|[e ->]]];
      [| |apply touches_only_alloc].
    + split; [apply touches_only_alloc|].
      intros l [Hl|Hl]; cbn in Hl.
      * injection Hl as <-. rewrite length_app. cbn. lia.
      * split; [rewrite length_app; cbn; specialize (Hlive l (or_intror Hl)); lia|].
        intros _. apply elem_of_pair_refs. by right.
    + split.
      * split; [rewrite !length_app; cbn; lia|].
        intros l Hl _. rewrite lookup_app_l by (rewrite length_app; lia).
        by rewrite lookup_app_l by lia.
      * intros l [Hl|Hl]; cbn in Hl; injection Hl as <-;
          rewrite !length_app; cbn; lia.
Qed.

(** The part of [process_data] after the cache is local to the pair it
    starts from. *)
Lemma finish_objs_local (augmentors transformers : option (list callable)) q h :
  local_stages augmentors -> local_stages transformers -> live h q ->
  local_run [q.1; q.2] h (finish_objs augmentors transformers q h).
Proof.
  intros Ha Ht Hlive. unfold finish_objs.
  apply local_run_bind; [by apply run_stage_list_local|].
  intros q1 h1 Hrun1.
  assert (live h1 q1) as Hlive1.
  { pose proof (run_stage_list_local augmentors q h Ha Hlive) as H.
    rewrite Hrun1 in H. eapply returns_within_live, H. }
  apply local_run_bind; [by apply run_stage_list_local|].
  intros q2 h2 Hrun2.
  assert (live h2 q2) as Hlive2.
  { pose proof (run_stage_list_local transformers q1 h1 Ht Hlive1) as H.
    rewrite Hrun2 in H. eapply returns_within_live, H. }
  by apply to_numpy_local.
Qed.

Lemma finish_sample_objs (p : val * val) (w : world) :
  finish_sample p w
  = on_objs (finish_objs (_augmentors (self w)) (_transformers (self w)) p) w.
Proof.
  destruct w as [h tape s].
  unfold finish_sample, finish_objs, on_objs, bind, get, ret.
  cbn -[data_to_numpy annotation_to_numpy run_stage_list].
  destruct (run_stage_list (_augmentors s) p h) as [p1 h1|]; [|reflexivity].
  cbn -[data_to_numpy annotation_to_numpy run_stage_list].
  destruct (run_stage_list (_transformers s) p1 h1) as [p2 h2|]; [|reflexivity].
  cbn -[data_to_numpy annotation_to_numpy run_stage_list].
  destruct (data_to_numpy p2.1 h2) as [d h3|]; [|reflexivity].
  cbn -[data_to_numpy annotation_to_numpy run_stage_list].
  destruct (annotation_to_numpy p2.2 h3) as [a h4|]; reflexivity.
Qed.

End Locality.

(** ** The paths through [load_sample] *)

Section Paths.

Variables (h : heap) (tape : list nat) (s : DataProvider).
Variable batch_data : descriptor.

Lemma null_sample_test (p : val * val) :
  (is_None p.1 || is_None p.2 = true) <-> null_sample p.
Proof.
  unfold null_sample, is_None. rewrite orb_true_iff, !bool_decide_eq_true.
  reflexivity.
Qed.

Lemma null_sample_dec (p : val * val) :
  {null_sample p /\ is_None p.1 || is_None p.2 = true} +
  {~ null_sample p /\ is_None p.1 || is_None p.2 = false}.
Proof.
  destruct (is_None p.1 || is_None p.2) eqn:Hn.
  - left. split; [by apply null_sample_test|reflexivity].
  - right. split; [|reflexivity]. intros Hp%null_sample_test. congruence.
Qed.

(** Not served from the cache: the preprocessors run. *)
Lemma load_sample_preprocess :
  not_cached batch_data (World h tape s) ->
  load_sample batch_data (World h tape s)
  = match run_stages (_data_preprocessors s) batch_data h with
    | Exc e h1 => Exc e (World h1 tape s)
    | Ret p h1 =>
        if is_None p.1 || is_None p.2
        then Ret None (World h1 tape (mark_for_removal batch_data s))
        else if _use_cache s then
               if hashable h1 batch_data.1 then
                 match deepcopy p.1 h1 with
                 | Ret d h2 =>
                     match deepcopy p.2 h2 with
                     | Ret a h3 =>
                         Ret (Some p)
                           (World h3 tape
                              (set_cache (<[batch_data.1 := (d, a)]> (_cache s)) s))
                     | Exc e h3 => Exc e (World h3 tape s)
                     end
                 | Exc e h2 => Exc e (World h2 tape s)
                 end
               else Exc TypeError (World h1 tape s)
             else Ret (Some p) (World h1 tape s)
    end.
Proof.
  intros Hmiss. unfold load_sample, cache_contains.
  unfold bind at 1. unfold get at 1. cbn [self objs].
  assert ((if _use_cache s
           then w <~ get ;;
                (if hashable (objs w) batch_data.1
                 then ret (bool_decide (is_Some (_cache (self w) !! batch_data.1)))
                 else raise TypeError)
           else ret false) (World h tape s) = Ret false (World h tape s)) as Hhit.
  { destruct Hmiss as [Hoff|[Hhash Hnone]]; cbn [self objs] in *.
    - by rewrite Hoff.
    - destruct (_use_cache s); [|reflexivity].
      unfold bind, get. cbn [objs self]. rewrite Hhash, Hnone. reflexivity. }
  unfold bind at 1. rewrite Hhit.
  unfold bind at 1. unfold get at 1. cbn [self objs].
  unfold bind at 1. unfold on_objs at 1. cbn [self objs np_random].
  destruct (run_stages (_data_preprocessors s) batch_data h) as [p h1|e h1];
    [|reflexivity].
  destruct (is_None p.1 || is_None p.2); [reflexivity|].
  unfold bind at 1. unfold get at 1. cbn [self objs].
  destruct (_use_cache s) eqn:Huse.
  - destruct Hmiss as [Hoff|[_ Hnone]]; cbn [self] in *; [congruence|].
    unfold bind, get, on_objs, on_self, modify, ret, raise. cbn [self objs np_random].
    destruct (hashable h1 batch_data.1); [|reflexivity].
    rewrite Hnone. cbn.
    destruct (deepcopy p.1 h1) as [d h2|e h2]; [|reflexivity]. cbn.
    destruct (deepcopy p.2 h2) as [a h3|e h3]; reflexivity.
  - reflexivity.
Qed.

(** Served from the cache: the entry is deep-copied. *)
Lemma load_sample_hit (entry : val * val) :
  _use_cache s = true ->
  hashable h batch_data.1 = true ->
  _cache s !! batch_data.1 = Some entry ->
  load_sample batch_data (World h tape s)
  = match deepcopy_pair entry h with
    | Ret p h1 => Ret (Some p) (World h1 tape s)
    | Exc e h1 => Exc e (World h1 tape s)
    end.
Proof.
  intros Huse Hhash Hentry. unfold load_sample, cache_contains.
  unfold bind, get, on_objs, ret. cbn [self objs np_random].
  rewrite Huse. cbn [self objs np_random]. rewrite Hhash, Hentry.
  rewrite bool_decide_eq_true_2 by eauto. cbn [self objs np_random].
  rewrite Hentry. cbn [self objs np_random].
  destruct (deepcopy_pair entry h); reflexivity.
Qed.

(** An unhashable key stops the lookup. *)
Lemma load_sample_unhashable :
  _use_cache s = true ->
  hashable h batch_data.1 = false ->
  load_sample batch_data (World h tape s) = Exc TypeError (World h tape s).
Proof.
  intros Huse Hhash. unfold load_sample, cache_contains.
  unfold bind, get, raise. cbn [self objs np_random].
  rewrite Huse. cbn [self objs]. by rewrite Hhash.
Qed.

End Paths.

(** ** Null samples *)

Lemma bind_assoc {S A B C} (m : M S A) (k : A -> M S B) (k' : B -> M S C)
    (s : S) :
  bind (bind m k) k' s = bind m (fun a => bind (k a) k') s.
Proof. unfold bind. destruct (m s); reflexivity. Qed.

Lemma bind_ext {S A B} (m : M S A) (k k' : A -> M S B) (s : S) :
  (forall a s', k a s' = k' a s') -> bind m k s = bind m k' s.
Proof. intros H. unfold bind. destruct (m s); [apply H|reflexivity]. Qed.

Lemma collect_batch_app (before rest : list descriptor)
    (acc : list val * list val) (w : world) :
  collect_batch (before ++ rest) acc w
  = (acc' <~ collect_batch before acc ;; collect_batch rest acc') w.
Proof.
  revert acc w. induction before as [|d before IH]; intros acc w; [reflexivity|].
  cbn [app collect_batch]. rewrite bind_assoc. apply bind_ext. intros r w1.
  destruct (is_None r.1 || is_None r.2).
  - rewrite bind_assoc. apply bind_ext. intros _ w2. apply IH.
  - apply IH.
Qed.

(** C1 (amended): when a sample is not served from the cache and the
    chain of preprocessors ends with a null data or a null annotation,
    [process_data] records the descriptor in the removal list and returns
    the [(None, None)] sentinel without raising; the batch loop then goes
    on with the next descriptor and the accumulated batch unchanged,
    wherever in the batch the descriptor stands. *)
Theorem null_sample_is_dropped (batch_data : descriptor) (w : world)
    (p : val * val) (h1 : heap) :
  not_cached batch_data w ->
  run_stages (_data_preprocessors (self w)) batch_data (objs w) = Ret p h1 ->
  null_sample p ->
  let w1 := World h1 (np_random w) (mark_for_removal batch_data (self w)) in
  let w2 := World h1 (np_random w)
              (log WARNING "Data or annotation is None, skipping."
                 (mark_for_removal batch_data (self w))) in
  process_data batch_data w = Ret (VNone, VNone) w1 /\
  _on_epoch_end_remove (self w1) = _on_epoch_end_remove (self w) ++ [batch_data] /\
  _dataset (self w1) = _dataset (self w) /\
  (forall rest acc,
     collect_batch (batch_data :: rest) acc w = collect_batch rest acc w2) /\
  (forall before rest acc0 w0 acc,
     collect_batch before acc0 w0 = Ret acc w ->
     collect_batch (before ++ batch_data :: rest) acc0 w0
     = collect_batch rest acc w2).
Proof.
  intros Hmiss Hrun Hnull w1 w2.
  assert (process_data batch_data w = Ret (VNone, VNone) w1) as Hp.
  { destruct w as [h tape s]. unfold process_data, bind.
    rewrite load_sample_preprocess by exact Hmiss.
    cbn [self objs] in Hrun. rewrite Hrun.
    apply null_sample_test in Hnull. rewrite Hnull. reflexivity. }
  assert (forall rest acc,
            collect_batch (batch_data :: rest) acc w = collect_batch rest acc w2)
    as Hloop.
  { intros rest acc. cbn [collect_batch]. unfold bind at 1. rewrite Hp.
    reflexivity. }
  split; [exact Hp|]. split; [reflexivity|]. split; [reflexivity|].
  split; [exact Hloop|].
  intros before rest acc0 w0 acc Hbefore.
  rewrite collect_batch_app. unfold bind. rewrite Hbefore. apply Hloop.
Qed.

(** ** Deep copies *)

Section DeepCopy.

Implicit Types (h : heap) (v : val) (p : val * val).

Lemma deepcopy_ref h (l : loc) (o : pyobj) :
  h !! l = Some o -> deepcopy (VRef l) h = Ret (VRef (length h)) (h ++ [o]).
Proof.
  intros Hl. unfold deepcopy, with_memo, deepcopy_memo. cbn [fst snd].
  rewrite lookup_empty, Hl. reflexivity.
Qed.

Lemma deepcopy_immutable h v :
  (forall l, v <> VRef l) -> deepcopy v h = Ret v h.
Proof. intros Hv. destruct v; try reflexivity. by destruct (Hv l). Qed.

(** A deep copy of a live value returns, touches nothing, and yields an
    independent copy. *)
Lemma deepcopy_copy h v :
  (forall l, v = VRef l -> (l < length h)%nat) ->
  exists v' h',
    deepcopy v h = Ret v' h' /\
    copy_of (length h) h h' v v' /\
    touches_only [] h h' /\
    (forall l, v' = VRef l -> (length h <= l < length h')%nat).
Proof.
  intros Hlive. destruct v as [| | | | |l].
  6: { destruct (lookup_lt_is_Some_2 h l (Hlive l eq_refl)) as [o Ho].
       exists (VRef (length h)), (h ++ [o]). rewrite (deepcopy_ref h l o Ho).
       split; [reflexivity|]. split; [|split].
       - exists (length h). split; [reflexivity|]. split; [lia|].
         apply lookup_lt_Some in Ho as Hlt. split; [lia|].
         rewrite lookup_app_r, Nat.sub_diag by lia. cbn. split; [eauto|by rewrite Ho].
       - apply touches_only_alloc.
       - intros l' [= <-]. rewrite length_app. cbn. lia. }
  all: eexists _, h; split; [reflexivity|]; split; [reflexivity|];
    split; [apply touches_only_refl|]; intros l' Hl'; discriminate.
Qed.

(** The deep copy of a live pair. *)
Lemma deepcopy_pair_copy h p :
  live h p ->
  exists p' h',
    deepcopy_pair p h = Ret p' h' /\
    copy_of (length h) h h' p.1 p'.1 /\
    copy_of (length h) h h' p.2 p'.2 /\
    touches_only [] h h' /\
    (forall l, p'.1 = VRef l \/ p'.2 = VRef l -> (length h <= l < length h')%nat).
Proof.
  intros Hlive. destruct p as [v1 v2]. unfold deepcopy_pair, with_memo, bind.
  cbn [fst snd] in *.
  assert (forall l, v2 = VRef l -> (l < length h)%nat) as H2
    by (intros l Hl; apply (Hlive l); by right).
  assert (forall l, v1 = VRef l -> (l < length h)%nat) as H1
    by (intros l Hl; apply (Hlive l); by left).
  destruct v1 as [| | | | |l1].
  6: { destruct (lookup_lt_is_Some_2 h l1 (H1 l1 eq_refl)) as [o1 Ho1].
       apply lookup_lt_Some in Ho1 as Hlt1.
       unfold deepcopy_memo at 1. cbn [fst snd]. rewrite lookup_empty, Ho1.
       destruct v2 as [| | | | |l2].
       6: { unfold deepcopy_memo. cbn [fst snd].
            destruct (decide (l1 = l2)) as [<-|Hne].
            - rewrite lookup_insert_eq. cbn.
              eexists (_, _), _. split; [reflexivity|]. cbn [fst snd].
              assert (copy_of (length h) h (h ++ [o1]) (VRef l1) (VRef (length h))).
              { exists (length h). split; [reflexivity|]. split; [lia|].
                split; [lia|]. rewrite lookup_app_r, Nat.sub_diag by lia.
                cbn. split; [eauto|by rewrite Ho1]. }
              split; [assumption|]. split; [assumption|].
              split; [apply touches_only_alloc|].
              intros l [[= <-]|[= <-]]; rewrite length_app; cbn; lia.
            - rewrite lookup_insert_ne, lookup_empty by exact Hne.
              destruct (lookup_lt_is_Some_2 h l2 (H2 l2 eq_refl)) as [o2 Ho2].
              apply lookup_lt_Some in Ho2 as Hlt2.
              rewrite (lookup_app_l h [o1] l2 Hlt2), Ho2. cbn.
              eexists (_, _), _. split; [reflexivity|]. cbn [fst snd].
              split; [|split; [|split]].
              + exists (length h). split; [reflexivity|]. split; [lia|].
                split; [lia|].
                rewrite lookup_app_l by (rewrite length_app; cbn; lia).
                rewrite lookup_app_r, Nat.sub_diag by lia.
                cbn. split; [eauto|by rewrite Ho1].
              + exists (length (h ++ [o1])). split; [reflexivity|].
                rewrite length_app. cbn. split; [lia|]. split; [lia|].
                rewrite lookup_app_r by (rewrite length_app; cbn; lia).
                rewrite length_app. cbn.
                replace (length h + 1 - (length h + 1))%nat with 0%nat by lia.
                cbn. split; [eauto|by rewrite Ho2].
              + split; [rewrite !length_app; cbn; lia|].
                intros l Hl _.
                rewrite lookup_app_l by (rewrite length_app; lia).
                by rewrite lookup_app_l by lia.
              + intros l [[= <-]|[= <-]]; rewrite !length_app; cbn; lia. }
       all: cbn; eexists (_, _), _; (split; [reflexivity|]); cbn [fst snd];
         (split; [exists (length h); split; [reflexivity|]; split; [lia|];
                  split; [lia|]; rewrite lookup_app_r, Nat.sub_diag by lia;
                  cbn; split; [eauto|by rewrite Ho1]|]);
         (split; [reflexivity|]); (split; [apply touches_only_alloc|]);
         intros l [[= <-]|Hl]; [rewrite length_app; cbn; lia|discriminate]. }
  all: unfold deepcopy_memo at 1; cbn [fst snd];
    destruct (deepcopy_copy h v2 H2) as (v2' & h' & Hrun & Hcopy & Ht & Hfresh);
    unfold deepcopy, with_memo in Hrun;
    destruct (deepcopy_memo v2 (h, ∅)) as [v2'' st|e st] eqn:Hm; [|discriminate];
    injection Hrun as <- <-; cbn; eexists (_, _), _; (split; [reflexivity|]);
    cbn [fst snd]; (split; [reflexivity|]); (split; [exact Hcopy|]);
    (split; [exact Ht|]); intros l [Hl|Hl]; [discriminate|by apply Hfresh].
Qed.

End DeepCopy.

(** ** The cache owns its objects *)

Section Isolation.

Implicit Types (h : heap) (s : DataProvider) (p r : val * val).

Lemma touches_only_weaken roots h h' :
  touches_only [] h h' -> touches_only roots h h'.
Proof.
  intros [Hlen H]. split; [exact Hlen|]. intros l Hl _. apply H; [exact Hl|].
  apply not_elem_of_nil.
Qed.

Lemma finish_sample_local p h tape s r w' :
  local_stages (_augmentors s) -> local_stages (_transformers s) -> live h p ->
  finish_sample p (World h tape s) = Ret r w' ->
  exists h', w' = World h' tape s /\
             touches_only [p.1; p.2] h h' /\ returns_within [p.1; p.2] h h' r.
Proof.
  intros Ha Ht Hlive. rewrite finish_sample_objs. unfold on_objs.
  cbn [self objs np_random].
  pose proof (finish_objs_local (_augmentors s) (_transformers s) p h Ha Ht Hlive)
    as Hloc.
  destruct (finish_objs _ _ p h) as [r' h'|e h']; [|discriminate].
  intros [= <- <-]. exists h'. split; [reflexivity|exact Hloc].
Qed.

(** The closing argument shared by every path of [process_data]: the
    run touched the heap through the descriptor only, what it returns is
    new or part of the descriptor, and whatever it added to the cache is
    new and not returned. *)
Lemma isolated_step (public : list val) (d : descriptor) h tape s h' s' r :
  isolated (d.1 :: d.2 :: public) (World h tape s) ->
  touches_only [d.1; d.2] h h' ->
  returns_within [d.1; d.2] h h' r ->
  (forall k e, _cache s !! k = Some e -> _cache s' !! k = Some e) ->
  (forall l, cached (_cache s') l ->
     cached (_cache s) l \/
     ((length h <= l < length h')%nat /\ r.1 <> VRef l /\ r.2 <> VRef l)) ->
  isolated (r.1 :: r.2 :: d.1 :: d.2 :: public) (World h' tape s') /\
  cache_kept (World h tape s) (World h' tape s').
Proof.
  intros [Hc Hpub] [Hlen Hkeep] Hr Hmono Hnew. cbn [self objs] in *.
  assert (forall l, VRef l ∈ [d.1; d.2] -> VRef l ∈ d.1 :: d.2 :: public) as Hsub.
  { intros l Hl. apply elem_of_pair_refs in Hl as [<-|<-]; [by left|by right; left]. }
  split; [split|]; cbn [self objs].
  - intros l Hl. destruct (Hnew l Hl) as [Hold|(Hfresh & Hr1 & Hr2)].
    + destruct (Hc l Hold) as [Hlt Hnot]. split; [lia|].
      rewrite !not_elem_of_cons. split; [|split].
      * intros Heq. apply Hnot, Hsub. apply (Hr l); [by left|exact Hlt].
      * intros Heq. apply Hnot, Hsub. apply (Hr l); [by right|exact Hlt].
      * by rewrite !not_elem_of_cons in Hnot.
    + split; [lia|]. rewrite !not_elem_of_cons. split; [congruence|].
      split; [congruence|]. rewrite <- !not_elem_of_cons.
      intros Hin. specialize (Hpub l Hin). lia.
  - intros l Hl. apply elem_of_cons in Hl as [Hl|Hl]; [by apply (Hr l); left|].
    apply elem_of_cons in Hl as [Hl|Hl]; [by apply (Hr l); right|].
    specialize (Hpub l Hl). lia.
  - intros k e He. split; [by apply Hmono|].
    intros l Hl. assert (cached (_cache s) l) as Hcl by (by exists k, e).
    destruct (Hc l Hcl) as [Hlt Hnot]. apply Hkeep; [exact Hlt|].
    intros Hin. by apply Hnot, Hsub.
Qed.

Lemma same_pipeline_refl s : same_pipeline s s.
Proof. by repeat split. Qed.

Lemma cached_insert (c : gmap val (val * val)) (key : val) (e : val * val) l :
  cached (<[key := e]> c) l -> cached c l \/ e.1 = VRef l \/ e.2 = VRef l.
Proof.
  intros (k & e' & Hk & Hl). destruct (decide (key = k)) as [->|Hne].
  - rewrite lookup_insert_eq in Hk. injection Hk as <-. by right.
  - rewrite lookup_insert_ne in Hk by exact Hne. left. by exists k, e'.
Qed.

(** One call of [process_data] keeps the cache apart from everything
    the caller holds, the returned pair included. *)
Lemma process_data_isolated (public : list val) (d : descriptor) (w w' : world) r :
  local_provider (self w) ->
  isolated (d.1 :: d.2 :: public) w ->
  process_data d w = Ret r w' ->
  isolated (r.1 :: r.2 :: d.1 :: d.2 :: public) w' /\
  cache_kept w w' /\
  same_pipeline (self w) (self w').
Proof.
  destruct w as [h tape s]. cbn [self].
  intros (Hpre & Haug & Htr) Hiso Hrun.
  assert (live h d) as Hlive.
  { intros l [Hl|Hl]; apply (proj2 Hiso l); rewrite <- Hl; [by left|by right; left]. }
  assert (forall l, cached (_cache s) l -> (l < length h)%nat) as Hclive
    by (intros l Hl; apply (proj1 Hiso l Hl)).
  unfold process_data, bind in Hrun.
  assert (not_cached d (World h tape s) \/
          exists e, _use_cache s = true /\ hashable h d.1 = true /\
                    _cache s !! d.1 = Some e) as [Hmiss|(e & Huse & Hhash & He)].
  { unfold not_cached. cbn [self objs].
    destruct (_use_cache s) eqn:Huse; [|by left; left].
    destruct (hashable h d.1) eqn:Hhash.
    - destruct (_cache s !! d.1) as [e|] eqn:He; [right; by exists e|by left; right].
    - rewrite load_sample_unhashable in Hrun by assumption. discriminate. }
  - (* the preprocessors run *)
    rewrite load_sample_preprocess in Hrun by exact Hmiss.
    pose proof (run_stages_local (_data_preprocessors s) d h Hpre Hlive) as Hloc.
    destruct (run_stages (_data_preprocessors s) d h) as [p h1|e h1];
      [|discriminate].
    destruct Hloc as [Ht Hr].
    assert (live h1 p) as Hlive1 by (by eapply returns_within_live).
    destruct (null_sample_dec p) as [[Hn Hb]|[Hn Hb]]; rewrite Hb in Hrun.
    + (* the sentinel *)
      injection Hrun as <- <-.
      destruct (isolated_step public d h tape s h1 (mark_for_removal d s)
                  (VNone, VNone) Hiso Ht) as [H1 H2].
      * intros l [Hl|Hl]; discriminate.
      * by intros k e He.
      * intros l Hl. by left.
      * split; [exact H1|]. split; [exact H2|]. by repeat split.
    + destruct (_use_cache s) eqn:Huse.
      * (* a copy is stored, then the pair is finished *)
        destruct Hmiss as [Hoff|[_ Hnone]]; cbn [self objs] in *; [congruence|].
        destruct (hashable h1 d.1); [|discriminate].
        destruct (deepcopy_copy h1 p.1) as (c1 & h2 & Hc1 & _ & Ht2 & Hf1);
          [intros l Hl; apply Hlive1; by left|].
        rewrite Hc1 in Hrun.
        destruct (deepcopy_copy h2 p.2) as (c2 & h3 & Hc2 & _ & Ht3 & Hf2);
          [intros l Hl; destruct Ht2; specialize (Hlive1 l (or_intror Hl)); lia|].
        rewrite Hc2 in Hrun.
        assert (live h3 p) as Hlive3.
        { intros l Hl. specialize (Hlive1 l Hl). destruct Ht2, Ht3. lia. }
        apply finish_sample_local in Hrun as (h4 & -> & Ht4 & Hr4);
          [|exact Haug|exact Htr|exact Hlive3].
        assert (touches_only [d.1; d.2] h h3) as Ht03.
        { eapply touches_only_step; [|apply (touches_only_weaken []), Ht3|by intros ? ? ?%elem_of_nil].
          eapply touches_only_step; [exact Ht|apply (touches_only_weaken []), Ht2|by intros ? ? ?%elem_of_nil]. }
        destruct Ht as [Hlen01 _], Ht2 as [Hlen12 _], Ht3 as [Hlen23 _].
        destruct (isolated_step public d h tape s h4
                    (set_cache (<[d.1 := (c1, c2)]> (_cache s)) s) r Hiso)
          as [H1 H2].
        -- eapply touches_only_step; [exact Ht03|exact Ht4|].
           intros l Hl Hin. eapply returns_within_roots; eauto.
        -- intros l Hl. destruct (Hr4 l Hl) as [Hlt Hold]. split; [exact Hlt|].
           intros Hlh. eapply returns_within_roots; [exact Hr|exact Hlh|].
           apply Hold. lia.
        -- intros k e He. cbn. rewrite lookup_insert_ne; [exact He|congruence].
        -- intros l Hl. cbn in Hl. apply cached_insert in Hl as [Hl|Hl]; [by left|].
           right. cbn [fst snd] in Hl.
           assert (length h1 <= l < length h3)%nat as Hrange.
           { destruct Hl as [Hl|Hl]; [specialize (Hf1 l Hl)|specialize (Hf2 l Hl)]; lia. }
           destruct Ht4 as [Hlen34 _]. split; [lia|].
           split; intros Heq.
           ++ destruct (Hr4 l (or_introl Heq)) as [_ Hold].
              specialize (Hold ltac:(lia)).
              apply elem_of_pair_refs in Hold. specialize (Hlive1 l Hold). lia.
           ++ destruct (Hr4 l (or_intror Heq)) as [_ Hold].
              specialize (Hold ltac:(lia)).
              apply elem_of_pair_refs in Hold. specialize (Hlive1 l Hold). lia.
        -- split; [exact H1|]. split; [exact H2|]. by repeat split.
      * (* caching is off *)
        apply finish_sample_local in Hrun as (h2 & -> & Ht2 & Hr2);
          [|exact Haug|exact Htr|exact Hlive1].
        destruct (isolated_step public d h tape s h2 s r Hiso) as [H1 H2].
        -- eapply touches_only_step; [exact Ht|exact Ht2|].
           intros l Hl Hin. eapply returns_within_roots; eauto.
        -- intros l Hl. destruct (Hr2 l Hl) as [Hlt Hold]. split; [exact Hlt|].
           intros Hlh. eapply returns_within_roots; [exact Hr|exact Hlh|].
           apply Hold. destruct Ht. lia.
        -- by intros k e He.
        -- intros l Hl. by left.
        -- split; [exact H1|]. split; [exact H2|]. apply same_pipeline_refl.
  - (* served from the cache *)
    rewrite (load_sample_hit h tape s d e Huse Hhash He) in Hrun.
    destruct (deepcopy_pair_copy h e) as (p & h1 & Hcopy & _ & _ & Ht1 & Hfresh).
    { intros l Hl. apply Hclive. by exists d.1, e. }
    rewrite Hcopy in Hrun.
    assert (live h1 p) as Hlive1 by (intros l Hl; specialize (Hfresh l Hl); lia).
    apply finish_sample_local in Hrun as (h2 & -> & Ht2 & Hr2);
      [|exact Haug|exact Htr|exact Hlive1].
    destruct (isolated_step public d h tape s h2 s r Hiso) as [H1 H2].
    + eapply touches_only_step; [apply touches_only_weaken, Ht1|exact Ht2|].
      intros l Hl Hin. apply elem_of_pair_refs in Hin. specialize (Hfresh l Hin). lia.
    + intros l Hl. destruct (Hr2 l Hl) as [Hlt Hold]. split; [exact Hlt|].
      intros Hlh. destruct Ht1 as [Hlen01 _]. specialize (Hold ltac:(lia)).
      apply elem_of_pair_refs in Hold. specialize (Hfresh l Hold). lia.
    + by intros k e' He'.
    + intros l Hl. by left.
    + split; [exact H1|]. split; [exact H2|]. apply same_pipeline_refl.
Qed.

End Isolation.

(** ** Isolation through a whole batch *)

Section BatchIsolation.

Implicit Types (h : heap) (s : DataProvider) (w : world) (public : list val).

Lemma isolated_subset public public' w :
  (forall v, v ∈ public' -> v ∈ public) -> isolated public w -> isolated public' w.
Proof.
  intros Hsub [Hc Hp]. split.
  - intros l Hl. destruct (Hc l Hl) as [Hlt Hn]. split; [exact Hlt|].
    intros Hin. by apply Hn, Hsub.
  - intros l Hl. by apply Hp, Hsub.
Qed.

Lemma cache_kept_refl w : cache_kept w w.
Proof. intros k e He. by split. Qed.

Lemma cache_kept_trans w1 w2 w3 :
  cache_kept w1 w2 -> cache_kept w2 w3 -> cache_kept w1 w3.
Proof.
  intros H12 H23 k e He. destruct (H12 k e He) as [He2 Ho2].
  destruct (H23 k e He2) as [He3 Ho3]. split; [exact He3|].
  intros l Hl. by rewrite Ho3, Ho2.
Qed.

Lemma same_pipeline_trans s1 s2 s3 :
  same_pipeline s1 s2 -> same_pipeline s2 s3 -> same_pipeline s1 s3.
Proof.
  intros (?&?&?&?&?&?) (?&?&?&?&?&?). repeat split; congruence.
Qed.

Lemma local_provider_same_pipeline s s' :
  same_pipeline s s' -> local_provider s -> local_provider s'.
Proof.
  intros (_ & Hp & Ha & Ht & _) (H1 & H2 & H3). unfold local_provider.
  by rewrite Hp, Ha, Ht.
Qed.

Lemma dataset_values_elem (ds : list descriptor) (d : descriptor) (v : val) :
  d ∈ ds -> v ∈ [d.1; d.2] -> v ∈ dataset_values ds.
Proof. intros Hd Hv. unfold dataset_values. apply list_elem_of_bind. eauto. Qed.

Lemma collect_batch_isolated (batch : list descriptor)
    (acc acc' : list val * list val) w w' public :
  local_provider (self w) ->
  isolated (acc.1 ++ acc.2 ++ dataset_values batch ++ public) w ->
  collect_batch batch acc w = Ret acc' w' ->
  isolated (acc'.1 ++ acc'.2 ++ dataset_values batch ++ public) w' /\
  cache_kept w w' /\
  same_pipeline (self w) (self w').
Proof.
  revert acc w public.
  induction batch as [|d batch IH]; intros acc w public Hlocal Hiso Hrun.
  - injection Hrun as <- <-. split; [exact Hiso|].
    split; [apply cache_kept_refl|apply same_pipeline_refl].
  - cbn [collect_batch] in Hrun. unfold bind at 1 in Hrun.
    destruct (process_data d w) as [r w1|e w1] eqn:Hp; [|discriminate].
    destruct (process_data_isolated
                (acc.1 ++ acc.2 ++ dataset_values batch ++ public) d w w1 r Hlocal)
      as (Hiso1 & Hkept1 & Hsame1); [|exact Hp|].
    { eapply isolated_subset; [|exact Hiso]. intros v. list_membership. }
    pose proof (local_provider_same_pipeline _ _ Hsame1 Hlocal) as Hlocal1.
    destruct (is_None r.1 || is_None r.2).
    + unfold bind, on_self, modify in Hrun. cbn [self objs np_random] in Hrun.
      destruct w1 as [h1 tape1 s1]. cbn [self objs np_random] in *.
      apply (IH acc _ (d.1 :: d.2 :: public)) in Hrun as (Hiso2 & Hkept2 & Hsame2).
      * split; [|split].
        -- eapply isolated_subset; [|exact Hiso2]. intros v. list_membership.
        -- eapply cache_kept_trans; [exact Hkept1|].
           eapply cache_kept_trans; [|exact Hkept2]. intros k e He. by split.
        -- eapply same_pipeline_trans; [exact Hsame1|].
           eapply same_pipeline_trans; [|exact Hsame2]. by repeat split.
      * exact Hlocal1.
      * destruct Hiso1 as [Hc Hpub]. split; cbn [self objs] in *.
        -- intros l Hl. destruct (Hc l Hl) as [Hlt Hn]. split; [exact Hlt|].
           intros Hin. apply Hn. revert Hin. list_membership.
        -- intros l Hl. apply Hpub. revert Hl. list_membership.
    + apply (IH _ _ (d.1 :: d.2 :: public)) in Hrun as (Hiso2 & Hkept2 & Hsame2).
      * split; [|split].
        -- eapply isolated_subset; [|exact Hiso2]. intros v. list_membership.
        -- by eapply cache_kept_trans.
        -- by eapply same_pipeline_trans.
      * exact Hlocal1.
      * eapply isolated_subset; [|exact Hiso1]. intros v. list_membership.
Qed.

Lemma get_batch_annotations_elems (index : Z) s s' (batch : list descriptor) :
  get_batch_annotations index s = Ret batch s' ->
  s' = set_step index s /\ forall d, d ∈ batch -> d ∈ _dataset s.
Proof.
  unfold get_batch_annotations, bind, modify, get. cbn.
  destruct (mapM _ _) as [l|] eqn:Hm; [|discriminate].
  intros [= <- <-]. split; [reflexivity|].
  apply mapM_Some_1 in Hm. intros d Hd.
  apply list_elem_of_lookup in Hd as [i Hi].
  destruct (Forall2_lookup_r _ _ _ _ _ Hm Hi) as (z & _ & Hz).
  unfold py_index in Hz. cbn in Hz.
  repeat case_decide; try discriminate; by eapply list_elem_of_lookup_2.
Qed.

End BatchIsolation.

(** A copy stays a copy when the heap only grows afterwards. *)
Lemma copy_of_grow (bound : nat) (h h1 h2 : heap) (v v' : val) :
  copy_of bound h h1 v v' -> touches_only [] h1 h2 -> copy_of bound h h2 v v'.
Proof.
  intros Hc [Hlen Hkeep]. destruct v; try exact Hc.
  destruct Hc as (l' & -> & Hb & Hne & Hsome & Hcontent).
  assert (h2 !! l' = h1 !! l') as Heq.
  { apply Hkeep; [|apply not_elem_of_nil].
    destruct Hsome as [o Ho]. by apply lookup_lt_Some in Ho. }
  exists l'. rewrite Heq. by repeat split.
Qed.

Lemma copy_of_source (bound : nat) (h0 h h1 : heap) (v v' : val) :
  copy_of bound h h1 v v' -> touches_only [] h0 h ->
  (forall l, v = VRef l -> (l < length h0)%nat) ->
  (length h0 <= bound)%nat -> copy_of (length h0) h0 h1 v v'.
Proof.
  intros Hc [Hlen Hkeep] Hlive Hb. destruct v; try exact Hc.
  destruct Hc as (l' & -> & Hb' & Hne & Hsome & Hcontent).
  exists l'. repeat split; [lia|exact Hne|exact Hsome|].
  rewrite Hcontent. apply Hkeep; [by apply Hlive|apply not_elem_of_nil].
Qed.

(** C2: with caching on, a sample found in the cache is processed from a
    deep copy of its entry, and a sample not found has a deep copy of its
    preprocessed pair stored before the augmentors run; both copies are
    new objects with the content of the original.  For stages that reach
    the heap through their arguments only, a batch request keeps every
    cache entry with its content, returns no object of the cache, and so
    any later mutation of a returned object leaves the cache as it is;
    the premises hold again after the request, hence for every later
    one. *)
Theorem cache_entries_never_aliased (w : world) (public : list val) :
  _use_cache (self w) = true ->
  local_provider (self w) ->
  isolated (dataset_values (_dataset (self w)) ++ public) w ->
  (forall batch_data entry,
     batch_data ∈ _dataset (self w) ->
     hashable (objs w) batch_data.1 = true ->
     _cache (self w) !! batch_data.1 = Some entry ->
     exists p h1,
       load_sample batch_data w = Ret (Some p) (World h1 (np_random w) (self w)) /\
       copy_of (length (objs w)) (objs w) h1 entry.1 p.1 /\
       copy_of (length (objs w)) (objs w) h1 entry.2 p.2 /\
       process_data batch_data w
       = finish_sample p (World h1 (np_random w) (self w))) /\
  (forall batch_data p h1,
     batch_data ∈ _dataset (self w) ->
     hashable (objs w) batch_data.1 = true ->
     _cache (self w) !! batch_data.1 = None ->
     run_stages (_data_preprocessors (self w)) batch_data (objs w) = Ret p h1 ->
     ~ null_sample p ->
     hashable h1 batch_data.1 = true ->
     exists entry h3,
       let w3 := World h3 (np_random w)
                   (set_cache (<[batch_data.1 := entry]> (_cache (self w))) (self w)) in
       load_sample batch_data w = Ret (Some p) w3 /\
       copy_of (length h1) h1 h3 p.1 entry.1 /\
       copy_of (length h1) h1 h3 p.2 entry.2 /\
       process_data batch_data w = finish_sample p w3) /\
  (forall index data annotations w',
     __getitem__ index w = Ret (BArray data, BArray annotations) w' ->
     cache_kept w w' /\
     (forall l o, VRef l ∈ data ++ annotations ->
        cache_kept w' (World (<[l := o]> (objs w')) (np_random w') (self w'))) /\
     _use_cache (self w') = true /\
     local_provider (self w') /\
     isolated (dataset_values (_dataset (self w')) ++ data ++ annotations ++ public) w').
Proof.
  destruct w as [h tape s]. cbn [self objs np_random].
  intros Huse Hlocal Hiso.
  assert (forall d, d ∈ _dataset s -> live h d) as Hlive.
  { intros d Hd l Hl. apply (proj2 Hiso l). apply elem_of_app. left.
    apply (dataset_values_elem _ d); [exact Hd|by apply elem_of_pair_refs]. }
  split; [|split].
  - intros d entry Hd Hhash He.
    destruct (deepcopy_pair_copy h entry) as (p & h1 & Hcopy & Hc1 & Hc2 & _ & _).
    { intros l Hl. apply (proj1 Hiso l). by exists d.1, entry. }
    exists p, h1.
    assert (load_sample d (World h tape s) = Ret (Some p) (World h1 tape s)) as Hload
      by (by rewrite (load_sample_hit h tape s d entry Huse Hhash He), Hcopy).
    split; [exact Hload|]. split; [exact Hc1|]. split; [exact Hc2|].
    unfold process_data, bind. by rewrite Hload.
  - intros d p h1 Hd Hhash Hnone Hrun Hnull Hhash1.
    pose proof (run_stages_local (_data_preprocessors s) d h (proj1 Hlocal)
                  (Hlive d Hd)) as Hloc.
    rewrite Hrun in Hloc. destruct Hloc as [_ Hr].
    assert (live h1 p) as Hlive1 by (by eapply returns_within_live).
    destruct (deepcopy_copy h1 p.1) as (c1 & h2 & Hc1 & Hcopy1 & Ht2 & Hf1);
      [intros l Hl; apply Hlive1; by left|].
    destruct (deepcopy_copy h2 p.2) as (c2 & h3 & Hc2 & Hcopy2 & Ht3 & Hf2);
      [intros l Hl; destruct Ht2; specialize (Hlive1 l (or_intror Hl)); lia|].
    exists (c1, c2), h3. cbn zeta.
    assert (load_sample d (World h tape s)
            = Ret (Some p)
                (World h3 tape (set_cache (<[d.1 := (c1, c2)]> (_cache s)) s)))
      as Hload.
    { rewrite load_sample_preprocess by (right; by split).
      rewrite Hrun. destruct (null_sample_dec p) as [[Hn _]|[_ ->]]; [contradiction|].
      by rewrite Huse, Hhash1, Hc1, Hc2. }
    split; [exact Hload|]. cbn [fst snd]. split; [|split].
    + by eapply copy_of_grow.
    + eapply copy_of_source; [exact Hcopy2|exact Ht2| |by destruct Ht2].
      intros l Hl. apply Hlive1. by right.
    + unfold process_data, bind. by rewrite Hload.
  - intros index data annotations w' Hget.
    unfold __getitem__, bind in Hget.
    unfold on_self at 1 in Hget. cbn [self objs np_random] in Hget.
    destruct (get_batch_annotations index s) as [batch s0|e s0] eqn:Hbatch;
      [|discriminate].
    apply get_batch_annotations_elems in Hbatch as [-> Hin].
    destruct (collect_batch batch ([], []) _) as [acc w1|e w1] eqn:Hcollect;
      [|discriminate].
    injection Hget as <- <- <-.
    apply (collect_batch_isolated batch ([], []) acc _ w1
             (dataset_values (_dataset s) ++ public)) in Hcollect
      as (Hiso1 & Hkept & Hsame).
    + assert (isolated
                (dataset_values (_dataset (self w1)) ++ acc.1 ++ acc.2 ++ public) w1)
        as Hiso2.
      { eapply isolated_subset; [|exact Hiso1]. intros v.
        destruct Hsame as [-> _]. cbn. list_membership. }
      split; [|split; [|split; [|split]]].
      * intros k e He. destruct (Hkept k e He) as [He1 Ho1]. by split.
      * intros l o Hl k e He. split; [exact He|]. intros l' Hl'. cbn [objs].
        apply list_lookup_insert_ne. intros <-.
        destruct (proj1 Hiso2 l) as [_ Hn]; [by exists k, e|].
        apply Hn. revert Hl. list_membership.
      * destruct Hsame as (_ & _ & _ & _ & -> & _). cbn. exact Huse.
      * eapply local_provider_same_pipeline; [exact Hsame|]. exact Hlocal.
      * exact Hiso2.
    + exact Hlocal.
    + eapply isolated_subset; [|exact Hiso]. intros v. cbn.
      rewrite !elem_of_app. intros [Hv|[Hv|Hv]]; [|by left|by right].
      left. apply list_elem_of_bind in Hv as (d & Hv & Hd).
      eapply dataset_values_elem; [apply Hin, Hd|exact Hv].
Qed.

(** ** The sample pipelines *)

Lemma read_array_local : local_stage read_array.
Proof.
  intros d a h Hlive. unfold read_array, local_run. cbn [call].
  destruct d; try apply touches_only_refl.
  destruct (String.eqb s "missing.bin").
  - split; [apply touches_only_refl|]. intros l [Hl|Hl]; discriminate.
  - split; [apply touches_only_alloc|]. intros l [Hl|Hl]; cbn in Hl.
    + injection Hl as <-. rewrite length_app. cbn. lia.
    + subst a. split.
      * (* the annotation is returned as it came *)
        rewrite length_app. specialize (Hlive l (or_intror eq_refl)). lia.
      * intros _. by right; left.
Qed.

Lemma brighten_local : local_stage brighten.
Proof.
  intros d a h Hlive. unfold brighten. cbn [call].
  destruct d as [| | | | |l];
    try (by apply (local_run_ret h (_, a))).
  destruct (h !! l) as [o|] eqn:Ho; [|apply touches_only_refl].
  split.
  - split; [by rewrite length_insert|].
    intros l' Hl' Hroot. apply list_lookup_insert_ne. intros <-.
    apply Hroot. by left.
  - intros l' Hl'. rewrite length_insert. split; [by apply Hlive|].
    intros _. by apply (elem_of_pair_refs (VRef l, a)).
Qed.

Lemma caching_provider_local : local_provider caching_provider.
Proof.
  split; [|split].
  - apply Forall_singleton, read_array_local.
  - intros stages [= <-]. apply Forall_singleton, brighten_local.
  - intros stages [= <-]. apply Forall_nil_2.
Qed.

Lemma caching_provider_isolated :
  isolated (dataset_values (_dataset caching_provider) ++ [])
    (world_of caching_provider).
Proof.
  split.
  - intros l (k & e & Hk & _). cbn in Hk. by rewrite lookup_empty in Hk.
  - intros l Hl. cbn in Hl.
    repeat (apply elem_of_cons in Hl as [Hl|Hl]; [discriminate|]).
    by apply elem_of_nil in Hl.
Qed.

(** ** Instances *)


Lemma get_batch_contiguous_slice_witness :
  __len__ seven_by_three = Ret 3 seven_by_three /\
  0 <= 2 < 3 /\
  get_batch_annotations 2 seven_by_three
  = Ret [row "6.bin" "g"] (set_step 2 seven_by_three).
Proof.
  split; [reflexivity|]. split; [lia|].
  destruct (get_batch_contiguous_slice seven_by_three 2 3) as (_ & H & _);
    [reflexivity|lia|exact H].
Defined.

Lemma null_sample_is_dropped_witness :
  process_data (row "missing.bin" "fox")
    (world_of (provider_of three_rows [read_array] 2 false))
  = Ret (VNone, VNone)
      (World [] []
         (mark_for_removal (row "missing.bin" "fox")
            (provider_of three_rows [read_array] 2 false))) /\
  _on_epoch_end_remove
    (mark_for_removal (row "missing.bin" "fox")
       (provider_of three_rows [read_array] 2 false))
  = [row "missing.bin" "fox"].
Proof.
  destruct (null_sample_is_dropped (row "missing.bin" "fox")
              (world_of (provider_of three_rows [read_array] 2 false))
              (VNone, VNone) []) as (H & Hmark & _);
    [left; reflexivity|reflexivity|left; reflexivity|].
  split; [exact H|exact Hmark].
Defined.




Lemma setters_append_conforming_witness :
  exists s',
    augmentors_setter 10 (OtherObject [brighten; keep_shape; brighten])
      caching_provider = Some (Ret tt s') /\
    _augmentors s' = Some [brighten; brighten; brighten] /\
    logger s' = [(WARNING, "Augmentor is not an instance of Augmentor.")].
Proof.
  destruct (setters_append_conforming [brighten; keep_shape; brighten]
              caching_provider 10) as [(s' & Hrun & Ha & Hl) _];
    [cbn; lia|].
  exists s'. split; [exact Hrun|]. split; [exact Ha|exact Hl].
Defined.

Lemma cache_entries_never_aliased_witness :
  exists data annotations w',
    __getitem__ 0 (world_of caching_provider)
    = Ret (BArray data, BArray annotations) w' /\
    cache_kept (world_of caching_provider) w' /\
    forall l o, VRef l ∈ data ++ annotations ->
      cache_kept w' (World (<[l := o]> (objs w')) (np_random w') (self w')).
Proof.
  destruct (__getitem__ 0 (world_of caching_provider))
    as [[[|data|] [|annotations|]] w'|e w'] eqn:Hget;
    try (vm_compute in Hget; discriminate).
  exists data, annotations, w'. split; [reflexivity|].
  destruct (cache_entries_never_aliased (world_of caching_provider) [])
    as (_ & _ & Hbatch);
    [reflexivity|exact caching_provider_local|exact caching_provider_isolated|].
  destruct (Hbatch 0 data annotations w' Hget) as (Hkept & Hmut & _).
  split; [exact Hkept|exact Hmut].
Defined.


(** The cache at work: the first request stores the decoded arrays, both
    requests return brightened arrays, and the stored arrays keep the
    decoded content. *)
Example cached_arrays_stay_dark :
  exists b1 b2 w1 w2,
    __getitem__ 0 (world_of caching_provider) = Ret b1 w1 /\
    __getitem__ 0 w1 = Ret b2 w2 /\
    b1 = (BArray [VRef 0; VRef 2], BArray [VStr "cat"; VStr "dog"]) /\
    b2 = (BArray [VRef 4; VRef 5], BArray [VStr "cat"; VStr "dog"]) /\
    _cache (self w2) !! VStr "a.bin" = Some (VRef 1, VStr "cat") /\
    objs w2 !! 1%nat = Some (PyObj KNdarray [5]) /\
    objs w2 !! 0%nat = Some (PyObj KNdarray [6]) /\
    objs w2 !! 4%nat = Some (PyObj KNdarray [6]).
Proof. eexists _, _, _, _. vm_compute. repeat split. Qed.

(** Two completion orders of the same pooled batch: the arrays are
    allocated in the order the workers finish, the batch is in the order
    of the descriptors. *)
Example pooled_orders_agree :
  exists t t',
    torch.__getitem__ [0; 1; 2]%nat 0 pooled_world
    = Some (Ret (BArray [VRef 0; VRef 1], BArray [VStr "cat"; VStr "dog"]) t) /\
    torch.__getitem__ [1; 0; 2]%nat 0 pooled_world
    = Some (Ret (BArray [VRef 1; VRef 0], BArray [VStr "cat"; VStr "dog"]) t') /\
    objs t.1 = [PyObj KNdarray [5]; PyObj KNdarray [5]] /\
    objs t'.1 = [PyObj KNdarray [5]; PyObj KNdarray [5]].
Proof. eexists _, _. vm_compute. repeat split. Qed.

(** ** Where the code departs from the specification *)

(** Against C1: the first preprocessor yields the null pair.  When the
    second one builds a sample from it, the descriptor is not marked and
    its sample is in the batch; when the second one does not accept it,
    its exception reaches the caller of [__getitem__]. *)
Lemma null_from_earlier_preprocessor_kept :
  call drop_all (VStr "a.bin") (VStr "cat") [] = Ret (VNone, VNone) [] /\
  exists w1 w2 w3,
    process_data (row "a.bin" "cat") (world_of refilling_provider)
    = Ret (VRef 0, VInt 0) w1 /\
    _on_epoch_end_remove (self w1) = [] /\
    __getitem__ 0 (world_of refilling_provider)
    = Ret (BArray [VRef 0], BArray [VInt 0]) w2 /\
    _on_epoch_end_remove (self w2) = [] /\
    __getitem__ 0 (world_of strict_provider) = Exc (StageError 1) w3 /\
    _on_epoch_end_remove (self w3) = [].
Proof. split; [reflexivity|]. eexists _, _, _. vm_compute. repeat split. Qed.




(** Against C10: assigning the provider's own stage list never
    returns. *)
Lemma setter_on_own_list_never_returns :
  ~ exists fuel, is_Some (augmentors_setter fuel SameObject caching_provider).
Proof.
  intros [fuel [o Ho]]. unfold augmentors_setter in Ho.
  rewrite (register_stages_same is_Augmentor _augmentors set_augmentors _
             (fun _ _ => eq_refl) fuel 0 caching_provider [brighten]) in Ho.
  - discriminate.
  - reflexivity.
  - by apply Forall_singleton.
  - cbn. lia.
Qed.

(** * Further properties of the provider *)

(** ** Batch indices outside the range *)

Section BatchEdges.

Implicit Types (p : DataProvider) (ds : list descriptor).

(** Negative indices are all below the dataset bound: nothing is
    filtered. *)
Lemma filter_range_negative (N a : Z) (m : nat) :
  0 <= N -> a + Z.of_nat m <= 0 ->
  filter (fun i => i < N) ((fun k : nat => a + Z.of_nat k) <$> seq 0 m)
  = (fun k : nat => a + Z.of_nat k) <$> seq 0 m.
Proof.
  intros HN Ha. rewrite filter_range_clip. do 2 f_equal. lia.
Qed.

Lemma index_run_negative ds (a : Z) (m : nat) :
  - Z.of_nat (length ds) <= a -> a + Z.of_nat m <= 0 ->
  mapM (py_index ds) ((fun k : nat => a + Z.of_nat k) <$> seq 0 m)
  = Some (take m (drop (Z.to_nat (Z.of_nat (length ds) + a)) ds)).
Proof.
  intros Ha Hm. apply mapM_Some_2.
  apply Forall2_same_length_lookup_2.
  - rewrite length_fmap, length_seq, length_take, length_drop. lia.
  - intros i x y Hx Hy.
    rewrite list_lookup_fmap in Hx.
    destruct (seq 0 m !! i) as [k|] eqn:Hk; [|discriminate].
    apply lookup_seq in Hk as [-> Hi]. simpl in Hx. injection Hx as <-.
    unfold py_index. destruct (decide (0 <= a + Z.of_nat i)); [lia|].
    destruct (decide (- Z.of_nat (length ds) <= a + Z.of_nat i)); [|lia].
    rewrite lookup_take_lt, lookup_drop in Hy by lia.
    rewrite <- Hy. f_equal. lia.
Qed.

(** X1: for a batch size above zero, the batch of index [-k] is made of
    the [batch_size] rows that end [k - 1] batches before the end of the
    dataset, whatever the alignment of the forward batches; when the
    dataset has fewer than [k * batch_size] rows the call raises
    IndexError.  Either way [-k] is recorded as the step. *)
Theorem get_batch_negative_index p (k : Z) :
  0 < _batch_size p -> 0 < k ->
  let N := Z.of_nat (length (_dataset p)) in
  let b := _batch_size p in
  (k * b <= N ->
   get_batch_annotations (- k) p
   = Ret (rows_from (Z.to_nat (N - k * b)) (Z.to_nat b) (_dataset p))
         (set_step (- k) p)) /\
  (N < k * b ->
   get_batch_annotations (- k) p = Exc IndexError (set_step (- k) p)).
Proof.
  intros Hb Hk N b.
  unfold get_batch_annotations, bind, modify, get, ret, raise, py_range.
  cbn [_batch_size _dataset set_step]. fold b. fold N.
  replace (- k * b + b - - k * b) with b by lia.
  rewrite filter_range_negative by nia.
  split; intros Hrange.
  - rewrite index_run_negative by (fold N; nia).
    unfold rows_from. do 3 f_equal. fold N. lia.
  - destruct (mapM _ _) as [l|] eqn:Hm; [|reflexivity]. exfalso.
    apply mapM_Some_1 in Hm.
    assert (0 < Z.to_nat b)%nat as Hpos by lia.
    destruct (Z.to_nat b) as [|m] eqn:Hnat; [lia|].
    cbn in Hm. inversion Hm as [|? ? ? ? Hhead _]; subst.
    unfold py_index in Hhead. fold N in Hhead.
    destruct (decide (0 <= - k * b + Z.of_nat 0)); [nia|].
    destruct (decide (- N <= - k * b + Z.of_nat 0)); [nia|discriminate].
Qed.




(** X3: a batch index at or past the end of the dataset (or any index,
    when the batch size is not positive) raises nothing: [__getitem__]
    returns two empty arrays and changes nothing but the step. *)
Theorem getitem_past_the_end (index : Z) (w : world) :
  _batch_size (self w) <= 0 \/
  (0 <= index /\
   Z.of_nat (length (_dataset (self w))) <= index * _batch_size (self w)) ->
  __getitem__ index w
  = Ret (BArray [], BArray [])
        (World (objs w) (np_random w) (set_step index (self w))).
Proof.
  intros Hout. destruct w as [h tape s]. cbn [self objs np_random] in *.
  assert (get_batch_annotations index s = Ret [] (set_step index s)) as Hget.
  { destruct (Z_le_gt_dec (_batch_size s) 0) as [Hb|Hb].
    - clear Hout. unfold get_batch_annotations, bind, modify, get, ret, py_range.
      cbn [_batch_size _dataset set_step].
      replace (Z.to_nat (index * _batch_size s + _batch_size s
                         - index * _batch_size s)) with 0%nat by lia.
      reflexivity.
    - destruct Hout as [?|[Hi Hn]]; [lia|].
      rewrite get_batch_annotations_slice by lia.
      by rewrite drop_ge, take_nil by lia. }
  unfold __getitem__, bind, on_self. cbn [self objs np_random].
  by rewrite Hget.
Qed.

End BatchEdges.

(** ** What a sample and a batch are made of *)

Section Accounting.

Implicit Types (w : world) (d : descriptor) (h : heap).

Lemma is_ndarray_app h (o : pyobj) (v : val) :
  is_ndarray h v = true -> is_ndarray (h ++ [o]) v = true.
Proof.
  destruct v as [| | | | |l]; cbn; try done.
  destruct (h !! l) as [o'|] eqn:Hl; [|done].
  by rewrite (lookup_app_l_Some _ _ _ _ Hl).
Qed.

Lemma is_array_or_scalar_app h (o : pyobj) (v : val) :
  is_array_or_scalar h v = true -> is_array_or_scalar (h ++ [o]) v = true.
Proof.
  destruct v; try done. apply is_ndarray_app.
Qed.

Lemma numpy_ndarray (v v' : val) h h' :
  numpy v h = Ret v' h' -> is_ndarray h' v' = true.
Proof.
  unfold numpy. destruct v as [| | | | |l]; try discriminate.
  destruct (h !! l) as [[[] buf]|]; try discriminate.
  intros [= <- <-]. cbn. by rewrite list_lookup_middle.
Qed.

Lemma data_to_numpy_ndarray (v v' : val) h h' :
  data_to_numpy v h = Ret v' h' ->
  is_ndarray h' v' = true /\ (h' = h \/ exists o, h' = h ++ [o]).
Proof.
  intros Hrun.
  destruct (data_to_numpy_cases v h) as [Hc|[[o Hc]|[e Hc]]];
    rewrite Hc in Hrun; [| |discriminate].
  - injection Hrun as <- <-. split; [|by left].
    unfold data_to_numpy, bind, get, ret in Hc.
    destruct (is_ndarray h v) eqn:Hv; [reflexivity|].
    pose proof (numpy_fresh v h) as Hf. rewrite Hc in Hf.
    destruct Hf as [_ [o Ho]]. apply (f_equal length) in Ho.
    rewrite length_app in Ho. cbn in Ho. lia.
  - injection Hrun as <- <-. split; [|right; by exists o].
    unfold data_to_numpy, bind, get, ret in Hc.
    destruct (is_ndarray h v) eqn:Hv.
    + injection Hc as _ Hh. apply (f_equal length) in Hh.
      rewrite length_app in Hh. cbn in Hh. lia.
    + by apply numpy_ndarray in Hc.
Qed.

Lemma annotation_to_numpy_scalar (v v' : val) h h' :
  annotation_to_numpy v h = Ret v' h' ->
  is_array_or_scalar h' v' = true.
Proof.
  unfold annotation_to_numpy, bind, get, ret.
  destruct (is_array_or_scalar h v) eqn:Hv.
  - by intros [= <- <-].
  - intros Hn%numpy_ndarray. by destruct v'.
Qed.

(** What [finish_sample] returns is an array with an array or scalar
    annotation; the provider itself is not touched. *)
Lemma finish_sample_arrays (p r : val * val) w w' :
  finish_sample p w = Ret r w' ->
  np_random w' = np_random w /\ self w' = self w /\
  is_ndarray (objs w') r.1 = true /\ is_array_or_scalar (objs w') r.2 = true.
Proof.
  rewrite finish_sample_objs. unfold on_objs, finish_objs, bind.
  destruct (run_stage_list _ p _) as [p1 h1|]; [|discriminate].
  destruct (run_stage_list _ p1 _) as [p2 h2|]; [|discriminate].
  destruct (data_to_numpy p2.1 h2) as [data h3|] eqn:Hd; [|discriminate].
  destruct (annotation_to_numpy p2.2 h3) as [annotation h4|] eqn:Ha;
    [|discriminate].
  intros [= <- <-]. cbn.
  apply data_to_numpy_ndarray in Hd as [Hd _].
  split; [reflexivity|]. split; [reflexivity|].
  split; [|by eapply annotation_to_numpy_scalar].
  destruct (annotation_to_numpy_cases p2.2 h3) as [Hc|[[o Hc]|[e Hc]]];
    rewrite Hc in Ha; [| |discriminate].
  - by injection Ha as _ <-.
  - injection Ha as _ <-. by apply is_ndarray_app.
Qed.


Lemma same_run_trans (s1 s2 s3 : DataProvider) :
  same_run s1 s2 -> same_run s2 s3 -> same_run s1 s3.
Proof.
  intros (H1 & He1 & Hs1) (H2 & He2 & Hs2).
  split; [by eapply same_pipeline_trans|]. split; congruence.
Qed.

(** The two ways [load_sample] returns: with the pair to finish, the
    removal list as it was and at most one new cache entry, under the
    sample's identifier; or with nothing, the descriptor marked and the
    cache as it was. *)
Lemma load_sample_outcome d w (o : option (val * val)) w' :
  load_sample d w = Ret o w' ->
  np_random w' = np_random w /\
  same_run (self w) (self w') /\
  _step (self w') = _step (self w) /\
  match o with
  | None =>
      _on_epoch_end_remove (self w') = _on_epoch_end_remove (self w) ++ [d] /\
      _cache (self w') = _cache (self w)
  | Some _ =>
      _on_epoch_end_remove (self w') = _on_epoch_end_remove (self w) /\
      (_cache (self w') = _cache (self w) \/
       (_cache (self w) !! d.1 = None /\
        exists e, _cache (self w') = <[d.1 := e]> (_cache (self w))))
  end.
Proof.
  destruct w as [h tape s]. cbn [self objs np_random]. intros Hrun.
  assert (not_cached d (World h tape s) \/
          exists e, _use_cache s = true /\ hashable h d.1 = true /\
                    _cache s !! d.1 = Some e) as [Hmiss|(e & Huse & Hhash & He)].
  { unfold not_cached. cbn [self objs].
    destruct (_use_cache s) eqn:Huse; [|by left; left].
    destruct (hashable h d.1) eqn:Hhash.
    - destruct (_cache s !! d.1) as [e|] eqn:He; [right; by exists e|by left; right].
    - rewrite load_sample_unhashable in Hrun by assumption. discriminate. }
  - rewrite load_sample_preprocess in Hrun by exact Hmiss.
    destruct (run_stages _ d h) as [p h1|]; [|discriminate].
    destruct (is_None p.1 || is_None p.2).
    { injection Hrun as <- <-. by repeat split. }
    destruct (_use_cache s) eqn:Huse.
    + destruct Hmiss as [Hoff|[_ Hnone]]; cbn [self objs] in *; [congruence|].
      destruct (hashable h1 d.1); [|discriminate].
      destruct (deepcopy p.1 h1) as [c1 h2|]; [|discriminate].
      destruct (deepcopy p.2 h2) as [c2 h3|]; [|discriminate].
      injection Hrun as <- <-. cbn.
      repeat split; try reflexivity. right. split; [exact Hnone|]. by eexists.
    + injection Hrun as <- <-. repeat split; try reflexivity. by left.
  - rewrite (load_sample_hit _ _ _ _ e) in Hrun by assumption.
    destruct (deepcopy_pair e h) as [p h1|]; [|discriminate].
    injection Hrun as <- <-. repeat split; try reflexivity. by left.
Qed.

(** The two ways [process_data] returns, with what each leaves in the
    provider. *)
Lemma process_data_cases d w (r : val * val) w' :
  process_data d w = Ret r w' ->
  ((r = (VNone, VNone) /\
    _on_epoch_end_remove (self w') = _on_epoch_end_remove (self w) ++ [d] /\
    _cache (self w') = _cache (self w)) \/
   (is_ndarray (objs w') r.1 = true /\
    is_array_or_scalar (objs w') r.2 = true /\
    is_None r.1 || is_None r.2 = false /\
    _on_epoch_end_remove (self w') = _on_epoch_end_remove (self w) /\
    (_cache (self w') = _cache (self w) \/
     (_cache (self w) !! d.1 = None /\
      exists e, _cache (self w') = <[d.1 := e]> (_cache (self w)))))) /\
  np_random w' = np_random w /\
  same_run (self w) (self w') /\
  _step (self w') = _step (self w).
Proof.
  unfold process_data, bind.
  destruct (load_sample d w) as [[p|] w1|] eqn:Hload; [| |discriminate].
  - intros Hfin.
    apply load_sample_outcome in Hload as (Htape & Hrun & Hstep & Hrem & Hcache).
    apply finish_sample_arrays in Hfin as (Htape' & Hself & Hd & Ha).
    rewrite Hself, Htape'. split; [|by split; [|split]].
    right. repeat split; try assumption.
    destruct r as [[] []]; try done.
  - intros [= <- <-].
    apply load_sample_outcome in Hload as (Htape & Hrun & Hstep & Hrem & Hcache).
    split; [|by split; [|split]]. by left.
Qed.

(** X4: whatever the stages are, the only null that [process_data]
    returns is the [(None, None)] sentinel: a result with a null data or a
    null annotation is that pair, and its descriptor has just been
    appended to the removal list.  Any other result is an array together
    with an array or scalar annotation, and the removal list is as it
    was.  The dataset, the stage lists, the batch size, the epoch, the
    step and the random generator are never touched. *)
Theorem process_data_outcome d w (r : val * val) w' :
  process_data d w = Ret r w' ->
  (null_sample r ->
   r = (VNone, VNone) /\
   _on_epoch_end_remove (self w') = _on_epoch_end_remove (self w) ++ [d]) /\
  (~ null_sample r ->
   is_ndarray (objs w') r.1 = true /\
   is_array_or_scalar (objs w') r.2 = true /\
   _on_epoch_end_remove (self w') = _on_epoch_end_remove (self w)) /\
  np_random w' = np_random w /\
  same_run (self w) (self w') /\
  _step (self w') = _step (self w).
Proof.
  intros Hrun.
  destruct (process_data_cases d w r w' Hrun)
    as ([(-> & Hrem & _)|(Hd & Ha & Hnull & Hrem & _)] & Hframe).
  - split; [by intros _|]. split; [|exact Hframe].
    intros Hnot. exfalso. apply Hnot. by left.
  - split; [|split; [by intros _|exact Hframe]].
    intros Hn%null_sample_test. congruence.
Qed.

(** The loop of [__getitem__]: every descriptor of the batch ends up
    either as one sample in both accumulators or as one more entry of
    the removal list. *)
Lemma collect_batch_accounting (batch : list descriptor)
    (acc acc' : list val * list val) w w' :
  collect_batch batch acc w = Ret acc' w' ->
  exists (data annotations : list val) (marked : list descriptor),
    acc' = (acc.1 ++ data, acc.2 ++ annotations) /\
    length data = length annotations /\
    (length data + length marked = length batch)%nat /\
    marked `sublist_of` batch /\
    (VNone ∉ data) /\ (VNone ∉ annotations) /\
    _on_epoch_end_remove (self w') = _on_epoch_end_remove (self w) ++ marked /\
    np_random w' = np_random w /\
    same_run (self w) (self w') /\
    _step (self w') = _step (self w).
Proof.
  revert acc w. induction batch as [|d rest IH]; intros acc w Hrun.
  - injection Hrun as <- <-. exists [], [], [].
    rewrite !app_nil_r. destruct acc.
    repeat split; try reflexivity; by apply not_elem_of_nil.
  - cbn [collect_batch] in Hrun. unfold bind at 1 in Hrun.
    destruct (process_data d w) as [r w1|] eqn:Hp; [|discriminate].
    apply process_data_cases in Hp
      as ([(-> & Hrem & _)|(_ & _ & Hnull & Hrem & _)] & Htape & Hsame & Hstep).
    + cbn in Hrun. unfold bind, on_self, modify in Hrun. cbn in Hrun.
      apply IH in Hrun
        as (data & anns & marked & -> & Hlen & Hcount & Hsub & Hd & Ha &
            Hrem' & Htape' & Hsame' & Hstep').
      cbn in Hrem', Htape', Hstep'.
      exists data, anns, (d :: marked).
      split; [reflexivity|]. split; [exact Hlen|].
      split; [cbn; lia|]. split; [by constructor|].
      split; [exact Hd|]. split; [exact Ha|].
      split; [by rewrite Hrem', Hrem, <- app_assoc|].
      split; [congruence|]. split; [|congruence].
      eapply same_run_trans; [exact Hsame|exact Hsame'].
    + rewrite Hnull in Hrun.
      apply IH in Hrun
        as (data & anns & marked & -> & Hlen & Hcount & Hsub & Hd & Ha &
            Hrem' & Htape' & Hsame' & Hstep').
      cbn [fst snd] in *.
      apply orb_false_elim in Hnull as [Hn1 Hn2].
      apply bool_decide_eq_false in Hn1, Hn2.
      exists (r.1 :: data), (r.2 :: anns), marked.
      split; [by rewrite <- !app_assoc|]. split; [cbn; lia|].
      split; [cbn; lia|]. split; [by constructor|].
      split; [rewrite not_elem_of_cons; by split|].
      split; [rewrite not_elem_of_cons; by split|].
      split; [congruence|]. split; [congruence|]. split; [|congruence].
      eapply same_run_trans; [exact Hsame|exact Hsame'].
Qed.

(** [__getitem__] is the loop run on the descriptors of the index. *)
Lemma getitem_unfold (index : Z) w (b : bval * bval) w' :
  __getitem__ index w = Ret b w' ->
  exists (batch : list descriptor) (acc : list val * list val),
    get_batch_annotations index (self w) = Ret batch (set_step index (self w)) /\
    collect_batch batch ([], [])
      (World (objs w) (np_random w) (set_step index (self w))) = Ret acc w' /\
    b = (np_array acc.1, np_array acc.2).
Proof.
  unfold __getitem__, bind, on_self, ret.
  destruct (get_batch_annotations index (self w)) as [batch s1|] eqn:Hget;
    [|discriminate].
  apply get_batch_annotations_elems in Hget as Hs1. destruct Hs1 as [-> _].
  destruct (collect_batch batch _ _) as [acc w1|] eqn:Hrun; [|discriminate].
  intros [= <- <-]. by exists batch, acc.
Qed.

(** X5: a batch that [__getitem__] returns is a pair of arrays of the
    same length that hold no null; every descriptor of the requested
    slice is accounted for, as one delivered sample or as one new entry
    of the removal list, in the order of the slice.  The request records
    the index as the step and leaves the dataset, the stages, the batch
    size, the epoch and the random generator as they were. *)
Theorem getitem_accounting (index : Z) w (b : bval * bval) w' :
  __getitem__ index w = Ret b w' ->
  exists (batch marked : list descriptor) (data annotations : list val),
    get_batch_annotations index (self w) = Ret batch (set_step index (self w)) /\
    b = (BArray data, BArray annotations) /\
    length data = length annotations /\
    (length data + length marked = length batch)%nat /\
    marked `sublist_of` batch /\
    (VNone ∉ data) /\ (VNone ∉ annotations) /\
    _on_epoch_end_remove (self w') = _on_epoch_end_remove (self w) ++ marked /\
    _step (self w') = index /\
    np_random w' = np_random w /\
    same_run (self w) (self w').
Proof.
  intros (batch & acc & Hget & Hrun & ->)%getitem_unfold.
  apply collect_batch_accounting in Hrun
    as (data & anns & marked & -> & Hlen & Hcount & Hsub & Hd & Ha &
        Hrem & Htape & Hsame & Hstep).
  cbn [self np_random fst snd app] in *.
  exists batch, marked, data, anns.
  split; [exact Hget|]. split; [reflexivity|].
  split; [exact Hlen|]. split; [exact Hcount|]. split; [exact Hsub|].
  split; [exact Hd|]. split; [exact Ha|]. split; [exact Hrem|].
  split; [exact Hstep|]. split; [exact Htape|].
  eapply same_run_trans; [|exact Hsame]. by repeat split.
Qed.



End Accounting.

(** ** What a request leaves in the cache *)

Section CacheGrowth.

Implicit Types (w : world) (d : descriptor).

(** With the cache on, a sample that was loaded is in the cache
    afterwards: it was found there, or it has just been stored. *)
Lemma load_sample_cached d w (p : val * val) w' :
  _use_cache (self w) = true ->
  load_sample d w = Ret (Some p) w' ->
  is_Some (_cache (self w') !! d.1).
Proof.
  destruct w as [h tape s]. cbn [self objs np_random]. intros Huse Hrun.
  destruct (hashable h d.1) eqn:Hhash;
    [|by rewrite load_sample_unhashable in Hrun].
  destruct (_cache s !! d.1) as [e|] eqn:He.
  - rewrite (load_sample_hit _ _ _ _ e) in Hrun by assumption.
    destruct (deepcopy_pair e h) as [q h1|]; [|discriminate].
    injection Hrun as _ <-. cbn. by rewrite He.
  - rewrite load_sample_preprocess in Hrun by (by right).
    destruct (run_stages _ d h) as [q h1|]; [|discriminate].
    destruct (is_None q.1 || is_None q.2); [discriminate|].
    rewrite Huse in Hrun.
    destruct (hashable h1 d.1); [|discriminate].
    destruct (deepcopy q.1 h1) as [c1 h2|]; [|discriminate].
    destruct (deepcopy q.2 h2) as [c2 h3|]; [|discriminate].
    injection Hrun as _ <-. cbn. by rewrite lookup_insert_eq.
Qed.

(** With the cache off, nothing is stored. *)
Lemma load_sample_uncached d w (o : option (val * val)) w' :
  _use_cache (self w) = false ->
  load_sample d w = Ret o w' ->
  _cache (self w') = _cache (self w).
Proof.
  destruct w as [h tape s]. cbn [self objs np_random]. intros Huse Hrun.
  rewrite load_sample_preprocess in Hrun by (by left).
  destruct (run_stages _ d h) as [q h1|]; [|discriminate].
  destruct (is_None q.1 || is_None q.2); [by injection Hrun as _ <-|].
  rewrite Huse in Hrun. by injection Hrun as _ <-.
Qed.

Lemma process_data_cache d w (r : val * val) w' :
  process_data d w = Ret r w' ->
  (forall k e, _cache (self w) !! k = Some e -> _cache (self w') !! k = Some e) /\
  (forall k, is_Some (_cache (self w') !! k) ->
     is_Some (_cache (self w) !! k) \/ k = d.1) /\
  (_use_cache (self w) = true ->
   d ∈ _on_epoch_end_remove (self w') \/ is_Some (_cache (self w') !! d.1)) /\
  (_use_cache (self w) = false -> _cache (self w') = _cache (self w)).
Proof.
  intros Hrun.
  destruct (process_data_cases d w r w' Hrun) as (Hcases & _).
  assert (_cache (self w') = _cache (self w) \/
          (_cache (self w) !! d.1 = None /\
           exists e, _cache (self w') = <[d.1 := e]> (_cache (self w))))
    as Hgrow.
  { destruct Hcases as [(_ & _ & Hc)|(_ & _ & _ & _ & Hc)]; [by left|exact Hc]. }
  split; [|split; [|split]].
  - intros k e Hk. destruct Hgrow as [-> |(Hnone & e' & ->)]; [exact Hk|].
    rewrite lookup_insert_ne; [exact Hk|]. intros <-. congruence.
  - intros k Hk. destruct Hgrow as [Heq|(_ & e' & Heq)]; rewrite Heq in Hk;
      [by left|].
    destruct (decide (d.1 = k)) as [<-|Hne]; [by right|].
    rewrite lookup_insert_ne in Hk by exact Hne. by left.
  - intros Huse. destruct Hcases as [(_ & Hrem & _)|(_ & _ & Hnull & _)].
    + left. rewrite Hrem, elem_of_app, elem_of_cons. by right; left.
    + right. unfold process_data, bind in Hrun.
      destruct (load_sample d w) as [[p|] w1|] eqn:Hload; [| |discriminate].
      * apply load_sample_cached in Hload; [|exact Huse].
        apply finish_sample_arrays in Hrun as (_ & -> & _). exact Hload.
      * injection Hrun as <- <-. discriminate.
  - intros Huse. unfold process_data, bind in Hrun.
    destruct (load_sample d w) as [[p|] w1|] eqn:Hload; [| |discriminate].
    + apply load_sample_uncached in Hload; [|exact Huse].
      apply finish_sample_arrays in Hrun as (_ & -> & _). exact Hload.
    + injection Hrun as _ <-. by eapply load_sample_uncached.
Qed.

Lemma collect_batch_cache (batch : list descriptor)
    (acc acc' : list val * list val) w w' :
  collect_batch batch acc w = Ret acc' w' ->
  (forall k e, _cache (self w) !! k = Some e -> _cache (self w') !! k = Some e) /\
  (forall k, is_Some (_cache (self w') !! k) ->
     is_Some (_cache (self w) !! k) \/ exists d, d ∈ batch /\ d.1 = k) /\
  (_use_cache (self w) = true ->
   forall d, d ∈ batch ->
     d ∈ _on_epoch_end_remove (self w') \/ is_Some (_cache (self w') !! d.1)) /\
  (_use_cache (self w) = false -> _cache (self w') = _cache (self w)).
Proof.
  revert acc w. induction batch as [|d rest IH]; intros acc w Hrun.
  - injection Hrun as _ <-.
    split; [done|]. split; [by left|]. split; [|done].
    intros _ d Hd. by apply elem_of_nil in Hd.
  - cbn [collect_batch] in Hrun. unfold bind at 1 in Hrun.
    destruct (process_data d w) as [r w1|] eqn:Hp; [|discriminate].
    destruct (process_data_cases d w r w1 Hp)
      as (_ & _ & ((_ & _ & _ & _ & Huse1 & _) & _) & _).
    apply process_data_cache in Hp as (Hkeep & Hnew & Hin & Hoff).
    assert (exists w2,
              _cache (self w2) = _cache (self w1) /\
              _use_cache (self w2) = _use_cache (self w1) /\
              _on_epoch_end_remove (self w2) = _on_epoch_end_remove (self w1) /\
              exists acc2, collect_batch rest acc2 w2 = Ret acc' w')
      as (w2 & Hc2 & Hu2 & Hr2 & acc2 & Hrest).
    { destruct (is_None r.1 || is_None r.2).
      - unfold bind, on_self, modify in Hrun. cbn in Hrun.
        eexists. split; [|split; [|split; [|eexists; exact Hrun]]]; reflexivity.
      - exists w1. repeat split. by eexists. }
    pose proof (collect_batch_accounting _ _ _ _ _ Hrest)
      as (_ & _ & marked & _ & _ & _ & _ & _ & _ & Hrem & _).
    apply IH in Hrest as (Hkeep' & Hnew' & Hin' & Hoff').
    rewrite Hc2 in Hkeep', Hnew', Hoff'. rewrite Hu2, Huse1 in Hin', Hoff'.
    split; [by intros k e Hk; apply Hkeep', Hkeep|].
    split; [|split].
    + intros k Hk. destruct (Hnew' k Hk) as [Hk1|(d' & Hd' & <-)].
      * destruct (Hnew k Hk1) as [Hk0| ->]; [by left|].
        right. exists d. split; [apply elem_of_cons; by left|reflexivity].
      * right. exists d'. split; [apply elem_of_cons; by right|reflexivity].
    + intros Huse d' [->|Hd']%elem_of_cons; [|by apply Hin'].
      destruct (Hin Huse) as [Hmarked|[e He]].
      * left. rewrite Hrem, Hr2. apply elem_of_app. by left.
      * right. exists e. by apply Hkeep'.
    + intros Huse. by rewrite Hoff', Hoff.
Qed.

(** X19: how a request of a batch changes the cache.  No entry is ever
    overwritten or dropped; every new key is the identifier of a row of
    the requested slice.  With the cache on, every row of the slice is,
    once the batch is returned, either in the removal list or, under its
    identifier, in the cache; with the cache off nothing is stored. *)
Theorem getitem_fills_cache (index : Z) w (b : bval * bval) w'
    (batch : list descriptor) :
  get_batch_annotations index (self w) = Ret batch (set_step index (self w)) ->
  __getitem__ index w = Ret b w' ->
  (forall k e, _cache (self w) !! k = Some e -> _cache (self w') !! k = Some e) /\
  (forall k, is_Some (_cache (self w') !! k) ->
     is_Some (_cache (self w) !! k) \/ exists d, d ∈ batch /\ d.1 = k) /\
  (_use_cache (self w) = true ->
   forall d, d ∈ batch ->
     d ∈ _on_epoch_end_remove (self w') \/ is_Some (_cache (self w') !! d.1)) /\
  (_use_cache (self w) = false -> _cache (self w') = _cache (self w)).
Proof.
  intros Hget (batch' & acc & Hget' & Hrun & _)%getitem_unfold.
  rewrite Hget in Hget'. injection Hget' as <-.
  exact (collect_batch_cache _ _ _ _ _ Hrun).
Qed.

End CacheGrowth.

(** ** What a failed request leaves behind *)

Section Failures.

Implicit Types (w : world) (d : descriptor).




End Failures.

(** ** A full pass over the dataset *)

Section FullPass.

Implicit Types (w : world) (p : DataProvider).






End FullPass.

(** X8: an iteration that has nothing to yield.  With a batch size of
    zero the length cannot be computed and the iteration raises
    ZeroDivisionError before any request.  With a batch size below zero
    the length is negative as soon as the dataset has [-batch_size] rows,
    and [len] refuses it with ValueError; with fewer rows, or with an
    empty dataset and any batch size but zero, the length is zero and the
    iteration ends at once, without a request and with the provider as
    it was. *)
Theorem iter_degenerate (w : world) :
  let N := Z.of_nat (length (_dataset (self w))) in
  let b := _batch_size (self w) in
  (b = 0 -> __iter__ w = Exc ZeroDivisionError w) /\
  (b < 0 /\ - b <= N -> __iter__ w = Exc ValueError w) /\
  ((b < 0 /\ N < - b) \/ (b <> 0 /\ N = 0) -> __iter__ w = Ret [] w).
Proof.
  intros N b. subst N b. destruct w as [h tape s]. cbn [self].
  unfold __iter__, bind at 1, on_self, py_len, bind.
  cbn [self objs np_random]. split; [|split].
  - intros Hb. by rewrite len_zero_batch_size.
  - intros [Hb HN]. rewrite len_value by lia.
    set (n := Qceiling _).
    destruct (Qceiling_quotient (Z.of_nat (length (_dataset s))) (_batch_size s))
      as [_ Hneg]; [lia|]. fold n in Hneg. specialize (Hneg Hb).
    destruct (decide (n < 0)); [reflexivity|nia].
  - intros Hb. rewrite len_value by lia.
    set (n := Qceiling _).
    destruct (Qceiling_quotient (Z.of_nat (length (_dataset s))) (_batch_size s))
      as [Hpos Hneg]; [lia|]. fold n in Hpos, Hneg.
    assert (n = 0) as ->.
    { destruct Hb as [[Hb HN]|[Hb HN]]; [specialize (Hneg Hb); nia|].
      rewrite HN in Hpos, Hneg.
      destruct (Z_lt_le_dec 0 (_batch_size s)) as [Hlt|Hle];
        [specialize (Hpos Hlt)|specialize (Hneg ltac:(lia))]; nia. }
    by destruct (decide (0 < 0)).
Qed.

(** ** Construction and validation *)

Section Construction.

Variable fs : filesystem.

Implicit Types (a : init_args) (s : DataProvider).



(** X10: no construction ever validates.  The outcome of [__init__]
    does not depend on the file system, and every provider that is built
    has validation switched off: with validation on, the call of
    [validate] does not bind. *)
Theorem init_never_validates (fs' : filesystem) (keywords : list string) a :
  __init__ fs keywords a = __init__ fs' keywords a /\
  forall s, __init__ fs keywords a = Built s -> _skip_validation s = true.
Proof.
  destruct (arg_skip_validation a) eqn:Hskip.
  - split.
    + unfold __init__. by rewrite Hskip.
    + unfold __init__. rewrite Hskip. cbn [negb].
      destruct (negb (binds _ _ _)); [discriminate|].
      destruct (truthy (arg_limit a)); intros s [= <-]; reflexivity.
  - rewrite !init_with_validation by exact Hskip. by split.
Qed.






End Construction.

(** ** What the epoch end and the split leave alone *)

Section Frames.

Implicit Types (w : world) (s : DataProvider).





(** [split] up to the two copies, with the draws consumed. *)
Lemma split_start (ratio : Q) (shuffle : bool) w :
  exists ds tape,
    ds ≡ₚ _dataset (self w) /\
    (shuffle = false -> ds = _dataset (self w) /\ tape = np_random w) /\
    split ratio shuffle w
    = (train_data_provider <~ deepcopy_self ;;
       val_data_provider <~ deepcopy_self ;;
       w <~ get ;;
       let ds := _dataset (self w) in
       let k := py_int (inject_Z (Z.of_nat (length ds)) * ratio) in
       ret (set_dataset (py_slice_to ds k) train_data_provider,
            set_dataset (py_slice_from ds k) val_data_provider))
        (World (objs w) tape (set_dataset ds (self w))).
Proof.
  destruct w as [h tape s]. unfold split. cbn [self objs np_random].
  destruct shuffle.
  - destruct (np_random_shuffle_Permutation (_dataset s) tape)
      as (ds & tape' & Hrun & Hp).
    exists ds, tape'. split; [exact Hp|]. split; [discriminate|].
    unfold bind at 1 2 3. unfold get at 1. cbn -[np_random_shuffle].
    unfold on_random. cbn -[np_random_shuffle]. rewrite Hrun. reflexivity.
  - exists (_dataset s), tape. split; [reflexivity|]. split; [by split|].
    destruct s; reflexivity.
Qed.







End Frames.

(** ** The pooled provider: failures *)

Section PoolFailures.

Implicit Types (t : torch.tworld) (p : DataProvider).

(** A batch index that is not negative never fails to give its
    descriptors. *)
Lemma get_batch_annotations_returns p (index : Z) :
  0 <= index ->
  exists batch, get_batch_annotations index p = Ret batch (set_step index p).
Proof.
  intros Hi. destruct (Z_le_gt_dec 0 (_batch_size p)) as [Hb|Hb].
  - eexists. by apply get_batch_annotations_slice.
  - exists []. unfold get_batch_annotations, bind, modify, get, ret, py_range.
    cbn [_batch_size _dataset set_step].
    by replace (Z.to_nat (index * _batch_size p + _batch_size p
                          - index * _batch_size p)) with 0%nat by lia.
Qed.

(** X15: a pooled provider whose pool cannot be started, because the
    smaller of the batch size and the number of workers is not positive,
    raises ValueError on every request of a batch: the step is recorded,
    no sample is processed, and the provider is left without a pool, so
    that the next request fails in the same way. *)
Theorem pooled_getitem_without_workers (completion : list nat) (index : Z) t :
  torch._executor t.2 = None ->
  Z.min (_batch_size (self t.1)) (torch.workers t.2) <= 0 ->
  0 <= index ->
  let t' := (World (objs t.1) (np_random t.1) (set_step index (self t.1)), t.2) in
  torch.__getitem__ completion index t = Some (Exc ValueError t') /\
  torch._executor t'.2 = None /\
  Z.min (_batch_size (self t'.1)) (torch.workers t'.2) <= 0.
Proof.
  intros Hpool Hmin Hi t'.
  destruct (get_batch_annotations_returns (self t.1) index Hi) as [batch Hget].
  split; [|by split].
  unfold torch.__getitem__, torch.pooled_join, torch.on_base, on_self.
  rewrite Hget. cbn [fst snd]. rewrite Hpool.
  unfold torch.start_executor. cbn [fst snd self].
  change (_batch_size (set_step index (self t.1))) with (_batch_size (self t.1)).
  by destruct (decide (_ <= 0)).
Qed.

(** The join re-raises the exception of the first future, in the order
    of the batch, that holds one. *)
Lemma join_batch_first_raised {St} (results : list (torch.future (val * val)))
    (acc : list val * list val) (s : St) (k : nat) (e : exn) :
  results !! k = Some (torch.Raised e) ->
  (forall j, (j < k)%nat -> exists r, results !! j = Some (torch.Done r)) ->
  torch.join_batch results acc s = Some (Exc e s).
Proof.
  revert k acc. induction results as [|fut results IH]; intros k acc Hk Hbefore.
  - by rewrite lookup_nil in Hk.
  - destruct k as [|k].
    + injection Hk as ->. reflexivity.
    + destruct (Hbefore 0%nat ltac:(lia)) as [r Hr]. injection Hr as ->.
      cbn [torch.join_batch].
      assert (forall acc', torch.join_batch results acc' s = Some (Exc e s))
        as Hrest.
      { intros acc'. apply (IH k); [exact Hk|].
        intros j Hj. apply (Hbefore (S j)). lia. }
      destruct (is_None r.1 || is_None r.2); apply Hrest.
Qed.

(** X16: when tasks of a pooled request raise, the request raises the
    exception of the failed task that comes first in the batch, not of
    the one that failed first in time: for every completion order, if
    the future at position [k] holds an exception and those before it
    hold results, that exception is the one the caller gets. *)
Theorem pooled_failure_in_batch_order (completion : list nat) (index : Z)
    t t1 (batch : list descriptor) (k : nat) (e : exn) :
  torch.on_base (on_self (get_batch_annotations index)) t = Ret batch t1 ->
  is_Some (torch._executor t.2) ->
  let results :=
    (torch.ThreadExecutor_call (fun d => torch.on_base (process_data d))
       batch completion t1).1 in
  results !! k = Some (torch.Raised e) ->
  (forall j, (j < k)%nat -> exists r, results !! j = Some (torch.Done r)) ->
  exists t', torch.__getitem__ completion index t = Some (Exc e t').
Proof.
  intros Hget [n Hpool] results Hk Hbefore.
  unfold torch.__getitem__, torch.pooled_join. rewrite Hget.
  assert (torch._executor t1.2 = Some n) as ->.
  { unfold torch.on_base in Hget.
    destruct (on_self _ t.1); [|discriminate].
    injection Hget as _ <-. exact Hpool. }
  unfold ret. subst results.
  destruct (torch.ThreadExecutor_call _ batch completion t1) as [results t3].
  cbn [fst] in Hk, Hbefore.
  rewrite (join_batch_first_raised results _ t3 k e Hk Hbefore).
  by exists t3.
Qed.

End PoolFailures.

(** ** Identifiers that cannot be cached *)

(** X17: with the cache switched on, a descriptor whose identifier is
    an array cannot be looked up in the cache: [process_data] raises
    TypeError at once, before any stage has run, and neither the heap
    nor the provider has changed; so does the request of a batch that
    starts with such a descriptor, once the step is recorded. *)
Theorem process_data_unhashable (d : descriptor) (w : world) :
  _use_cache (self w) = true ->
  hashable (objs w) d.1 = false ->
  process_data d w = Exc TypeError w /\
  forall index rest,
    get_batch_annotations index (self w)
    = Ret (d :: rest) (set_step index (self w)) ->
    __getitem__ index w
    = Exc TypeError (World (objs w) (np_random w) (set_step index (self w))).
Proof.
  intros Huse Hhash. destruct w as [h tape s]. cbn [self objs np_random] in *.
  assert (forall s', _use_cache s' = true ->
            process_data d (World h tape s') = Exc TypeError (World h tape s'))
    as Hraise.
  { intros s' Hs'. unfold process_data, bind.
    by rewrite load_sample_unhashable. }
  split; [by apply Hraise|].
  intros index rest Hget. unfold __getitem__, bind, on_self.
  cbn [self objs np_random]. rewrite Hget. cbn [collect_batch]. unfold bind.
  by rewrite Hraise.
Qed.

(** ** The pooled request and the sequential one *)

Section PoolAgrees.

Implicit Types (w : world) (d : descriptor).


Lemma same_but_log_trans w1 w2 w3 :
  same_but_log w1 w2 -> same_but_log w2 w3 -> same_but_log w1 w3.
Proof. intros (? & ? & ?) (? & ? & ?). repeat split; congruence. Qed.

Lemma same_but_log_sym w1 w2 : same_but_log w1 w2 -> same_but_log w2 w1.
Proof. intros (? & ? & ?). repeat split; congruence. Qed.




End PoolAgrees.

(** ** Successive assignments to a stage list *)

Section SetterFrame.

Variable isinstance : callable -> bool.
Variable attr : DataProvider -> option (list callable).
Variable set_attr : option (list callable) -> DataProvider -> DataProvider.
Variable warning : string.

Context {X : Type}.
Variable others : DataProvider -> X.

Hypothesis others_set : forall a s, others (set_attr a s) = others s.
Hypothesis others_log : forall l m s, others (log l m s) = others s.

(** Whatever list is assigned and however the loop ends, a setter
    changes nothing that neither [set_attr] nor the log changes. *)
Lemma register_stages_frame (fuel : nat) (arg : list_arg) (i : nat)
    (s : DataProvider) (out : outcome DataProvider unit) :
  register_stages fuel isinstance attr set_attr warning arg i s = Some out ->
  others (match out with Ret _ s' | Exc _ s' => s' end) = others s.
Proof.
  revert i s. induction fuel as [|fuel IH]; intros i s; [discriminate|].
  cbn [register_stages].
  destruct (assigned_items attr arg s) as [items|]; [|by intros [= <-]].
  destruct (items !! i) as [stage|]; [|by intros [= <-]].
  intros Hrun%IH. rewrite Hrun.
  destruct (isinstance stage); [|apply others_log].
  destruct (attr s); apply others_set.
Qed.

End SetterFrame.

Lemma appended_appended (o : option (list callable)) (k1 k2 : list callable) :
  appended (appended o k1) k2 = appended o (k1 ++ k2).
Proof.
  destruct o as [registered|], k1 as [|x k1], k2 as [|y k2]; cbn;
    rewrite ?app_nil_r, <- ?app_assoc; reflexivity.
Qed.

(** X20: assignments to [augmentors] accumulate.  Assigning one list
    and then another leaves the stage list and the log as one assignment
    of the two lists put end to end does, and no assignment touches
    anything but the augmentors and the log: the transformers, the
    preprocessors, the dataset, the cache and the counters stay. *)
Theorem augmentors_assignments_accumulate (items1 items2 : list callable)
    (s : DataProvider) (fuel : nat) :
  (length items1 + length items2 < fuel)%nat ->
  exists s1 s2 s12,
    augmentors_setter fuel (OtherObject items1) s = Some (Ret tt s1) /\
    augmentors_setter fuel (OtherObject items2) s1 = Some (Ret tt s2) /\
    augmentors_setter fuel (OtherObject (items1 ++ items2)) s = Some (Ret tt s12) /\
    _augmentors s2 = _augmentors s12 /\
    logger s2 = logger s12 /\
    set_augmentors None (without_log s2) = set_augmentors None (without_log s).
Proof.
  intros Hfuel.
  pose proof (fun items s Hlen =>
    register_stages_other is_Augmentor _augmentors set_augmentors
      "Augmentor is not an instance of Augmentor."
      (fun _ _ => eq_refl) (fun _ _ _ => eq_refl) (fun _ _ => eq_refl)
      items [] s fuel Hlen) as Hset.
  destruct (Hset items1 s ltac:(lia)) as (s1 & Hrun1 & Ha1 & Hl1).
  destruct (Hset items2 s1 ltac:(lia)) as (s2 & Hrun2 & Ha2 & Hl2).
  destruct (Hset (items1 ++ items2) s ltac:(rewrite length_app; lia))
    as (s12 & Hrun12 & Ha12 & Hl12).
  exists s1, s2, s12.
  split; [exact Hrun1|]. split; [exact Hrun2|]. split; [exact Hrun12|].
  split; [|split].
  - by rewrite Ha2, Ha1, Ha12, appended_appended, filter_app.
  - by rewrite Hl2, Hl1, Hl12, filter_app, fmap_app, app_assoc.
  - pose proof (fun items s s' H =>
      register_stages_frame is_Augmentor _augmentors set_augmentors
        "Augmentor is not an instance of Augmentor."
        (fun s => set_augmentors None (without_log s))
        (fun _ _ => eq_refl) (fun _ _ _ => eq_refl)
        fuel (OtherObject items) 0 s (Ret tt s') H) as Hframe.
    cbn in Hframe.
    rewrite (Hframe _ _ _ Hrun2). apply (Hframe _ _ _ Hrun1).
Qed.

(** ** The caches of the two halves of a split *)

Section Copies.

Variable h0 : heap.

Implicit Types (st : heap * gmap loc loc) (v : val).

Lemma touches_nothing_trans (h1 h2 h3 : heap) :
  touches_only [] h1 h2 -> touches_only [] h2 h3 -> touches_only [] h1 h3.
Proof.
  intros H12 H23. eapply touches_only_step; [exact H12|exact H23|].
  by intros l _ Hl%elem_of_nil.
Qed.

Lemma memo_copies_start : memo_copies h0 (h0, ∅).
Proof.
  split; [apply touches_only_refl|]. intros l l' Hl. cbn in Hl.
  by rewrite lookup_empty in Hl.
Qed.

(** One step of the copy: the value is cloned, or its clone is found in
    the memo. *)
Lemma deepcopy_memo_copies v st :
  memo_copies h0 st -> live_val h0 v ->
  exists v' st',
    deepcopy_memo v st = Ret v' st' /\
    memo_copies h0 st' /\
    touches_only [] st.1 st'.1 /\
    copy_of (length h0) h0 st'.1 v v'.
Proof.
  intros [Hgrow Hmemo] Hlive. destruct st as [h memo]. cbn [fst snd] in *.
  destruct v as [| | | | |l];
    try (eexists _, (h, memo); split; [reflexivity|];
         split; [by split|]; split; [apply touches_only_refl|reflexivity]).
  specialize (Hlive l eq_refl). destruct Hgrow as [Hlen Hkeep].
  unfold deepcopy_memo. cbn [fst snd].
  destruct (memo !! l) as [l'|] eqn:Hl.
  - destruct (Hmemo l l' Hl) as (Hl0 & Hrange & Hcontent).
    exists (VRef l'), (h, memo). split; [reflexivity|].
    split; [by split|]. split; [apply touches_only_refl|].
    exists l'. split; [reflexivity|]. split; [lia|]. split; [lia|].
    split; [|exact Hcontent]. apply lookup_lt_is_Some. cbn. lia.
  - assert (h !! l = h0 !! l) as Hsame
      by (apply Hkeep; [exact Hlive|apply not_elem_of_nil]).
    destruct (lookup_lt_is_Some_2 h0 l Hlive) as [o Ho].
    rewrite Hsame, Ho.
    exists (VRef (length h)), (h ++ [o], <[l := length h]> memo).
    split; [reflexivity|]. cbn [fst snd].
    split; [|split; [apply touches_only_alloc|]].
    + split.
      * eapply touches_nothing_trans; [by split|apply touches_only_alloc].
      * intros k k' Hk. cbn [fst snd] in *.
        destruct (decide (l = k)) as [<-|Hne].
        -- rewrite lookup_insert_eq in Hk. injection Hk as <-.
           split; [exact Hlive|]. rewrite length_app. cbn.
           split; [lia|]. by rewrite list_lookup_middle.
        -- rewrite lookup_insert_ne in Hk by exact Hne.
           destruct (Hmemo k k' Hk) as (Hk0 & Hrange & Hcontent).
           split; [exact Hk0|]. rewrite length_app. cbn. split; [lia|].
           rewrite lookup_app_l by lia. exact Hcontent.
    + exists (length h). split; [reflexivity|]. split; [lia|]. split; [lia|].
      rewrite list_lookup_middle by reflexivity. split; [by eexists|by rewrite Ho].
Qed.

Lemma deepcopy_row_copies (r : val * val) st :
  memo_copies h0 st -> live h0 r ->
  exists r' st',
    deepcopy_row r st = Ret r' st' /\
    memo_copies h0 st' /\
    touches_only [] st.1 st'.1 /\
    row_copy h0 st'.1 r r'.
Proof.
  intros Hst Hlive. unfold deepcopy_row, bind.
  destruct (deepcopy_memo_copies r.1 st Hst) as (a & st1 & -> & Hst1 & Ht1 & Ha).
  { intros l Hl. apply Hlive. by left. }
  destruct (deepcopy_memo_copies r.2 st1 Hst1) as (b & st2 & -> & Hst2 & Ht2 & Hb).
  { intros l Hl. apply Hlive. by right. }
  exists (a, b), st2. split; [reflexivity|]. split; [exact Hst2|].
  split; [by eapply touches_nothing_trans|].
  split; [by eapply copy_of_grow|exact Hb].
Qed.

Lemma deepcopy_entry_copies (e : val * (val * val)) st :
  memo_copies h0 st -> live_val h0 e.1 -> live h0 e.2 ->
  exists e' st',
    deepcopy_entry e st = Ret e' st' /\
    memo_copies h0 st' /\
    touches_only [] st.1 st'.1 /\
    entry_copy h0 st'.1 e e'.
Proof.
  intros Hst Hkey Hlive. unfold deepcopy_entry, bind.
  destruct (deepcopy_memo_copies e.1 st Hst Hkey)
    as (k & st1 & -> & Hst1 & Ht1 & Hk).
  destruct (deepcopy_row_copies e.2 st1 Hst1 Hlive)
    as (r & st2 & -> & Hst2 & Ht2 & Hr).
  exists (k, r), st2. split; [reflexivity|]. split; [exact Hst2|].
  split; [by eapply touches_nothing_trans|].
  split; [by eapply copy_of_grow|exact Hr].
Qed.

(** Copying a list item by item, under one memo. *)
Lemma mapM_state_copies {A} (f : A -> M (heap * gmap loc loc) A)
    (is_live : A -> Prop) (is_copy : heap -> A -> A -> Prop) :
  (forall h h' x y, is_copy h x y -> touches_only [] h h' -> is_copy h' x y) ->
  (forall x st, memo_copies h0 st -> is_live x ->
     exists y st', f x st = Ret y st' /\ memo_copies h0 st' /\
                   touches_only [] st.1 st'.1 /\ is_copy st'.1 x y) ->
  forall (l : list A) st, memo_copies h0 st -> Forall is_live l ->
    exists l' st', mapM_state f l st = Ret l' st' /\ memo_copies h0 st' /\
                   touches_only [] st.1 st'.1 /\ Forall2 (is_copy st'.1) l l'.
Proof.
  intros Hgrow Hstep l. induction l as [|x l IH]; intros st Hst Hall.
  - exists [], st. split; [reflexivity|]. split; [exact Hst|].
    split; [apply touches_only_refl|constructor].
  - apply Forall_cons in Hall as [Hx Hall].
    destruct (Hstep x st Hst Hx) as (y & st1 & Hy & Hst1 & Ht1 & Hc).
    destruct (IH st1 Hst1 Hall) as (l' & st2 & Hl' & Hst2 & Ht2 & Hcs).
    exists (y :: l'), st2. cbn [mapM_state]. unfold bind. rewrite Hy, Hl'.
    split; [reflexivity|]. split; [exact Hst2|].
    split; [by eapply touches_nothing_trans|].
    constructor; [by eapply Hgrow|exact Hcs].
Qed.

Lemma row_copy_grow (h h' : heap) (r r' : val * val) :
  row_copy h0 h r r' -> touches_only [] h h' -> row_copy h0 h' r r'.
Proof. intros [H1 H2] Ht. split; by eapply copy_of_grow. Qed.

Lemma entry_copy_grow (h h' : heap) (e e' : val * (val * val)) :
  entry_copy h0 h e e' -> touches_only [] h h' -> entry_copy h0 h' e e'.
Proof.
  intros [H1 H2] Ht. split; [by eapply copy_of_grow|by eapply row_copy_grow].
Qed.

End Copies.

Section SplitCopies.

Implicit Types (w : world) (s : DataProvider).

(** What [copy.deepcopy(self)] makes of the cache: every entry of the
    copy is the copy of an entry of the original, made of new objects;
    the objects of the original are left as they were. *)
Lemma deepcopy_self_cache w (p : DataProvider) w' :
  provider_live w ->
  deepcopy_self w = Ret p w' ->
  self w' = self w /\ np_random w' = np_random w /\
  touches_only [] (objs w) (objs w') /\
  forall k' e', _cache p !! k' = Some e' ->
    exists k e, _cache (self w) !! k = Some e /\
                entry_copy (objs w) (objs w') (k, e) (k', e').
Proof.
  intros (Hds & Hrm & Hcache). destruct w as [h tape s]. cbn [self objs] in *.
  unfold deepcopy_self, bind at 1, get, on_objs, with_memo.
  cbn [self objs np_random].
  destruct (mapM_state_copies h deepcopy_row (live h) (row_copy h)
              (row_copy_grow h) (deepcopy_row_copies h) (_dataset s) (h, ∅)
              (memo_copies_start h) Hds)
    as (ds' & st1 & Hrun1 & Hst1 & Ht1 & _).
  unfold bind at 1. rewrite Hrun1.
  destruct (mapM_state_copies h deepcopy_entry
              (fun e => live_val h e.1 /\ live h e.2) (entry_copy h)
              (entry_copy_grow h)
              (fun e st Hst He => deepcopy_entry_copies h e st Hst (proj1 He) (proj2 He))
              (map_to_list (_cache s)) st1 Hst1)
    as (cache' & st2 & Hrun2 & Hst2 & Ht2 & Hcopies).
  { apply Forall_forall. intros [k e] Hin%elem_of_map_to_list. by apply Hcache. }
  unfold bind at 1. rewrite Hrun2.
  destruct (mapM_state_copies h deepcopy_row (live h) (row_copy h)
              (row_copy_grow h) (deepcopy_row_copies h) (_on_epoch_end_remove s)
              st2 Hst2 Hrm)
    as (marked' & st3 & Hrun3 & Hst3 & Ht3 & _).
  unfold bind at 1. rewrite Hrun3. unfold ret.
  intros [= <- <-]. cbn [self objs np_random _cache].
  split; [reflexivity|]. split; [reflexivity|].
  split; [apply Hst3|].
  intros k' e' Hin%elem_of_list_to_map_2.
  apply list_elem_of_lookup in Hin as [i Hi].
  destruct (Forall2_lookup_r _ _ _ _ _ Hcopies Hi) as ([k e] & Hie & Hcopy).
  exists k, e. split.
  - apply elem_of_map_to_list. by eapply list_elem_of_lookup_2.
  - by eapply entry_copy_grow.
Qed.

(** The objects of a copied entry are new. *)
Lemma entry_copy_fresh (h0 h : heap) (e e' : val * (val * val)) (l : loc) :
  entry_copy h0 h e e' ->
  e'.2.1 = VRef l \/ e'.2.2 = VRef l ->
  (length h0 <= l < length h)%nat.
Proof.
  intros (_ & H1 & H2) Hl.
  assert (forall v, copy_of (length h0) h0 h v (VRef l) ->
            (length h0 <= l < length h)%nat) as Hfresh.
  { intros v Hc. destruct v; try discriminate.
    destruct Hc as (l' & [= ->] & Hb & _ & Hsome & _).
    split; [exact Hb|]. by apply lookup_lt_is_Some. }
  destruct Hl as [Hl|Hl]; rewrite Hl in *; eauto.
Qed.

Lemma entry_copy_source (h0 h1 h2 : heap) (e e' : val * (val * val)) :
  entry_copy h1 h2 e e' -> touches_only [] h0 h1 ->
  live_val h0 e.1 -> live h0 e.2 ->
  entry_copy h0 h2 e e'.
Proof.
  intros (Hk & H1 & H2) Ht Hkey Hlive. pose proof Ht as [Hlen _].
  split; [|split]; (eapply copy_of_source; [eassumption|exact Ht| |exact Hlen]).
  - exact Hkey.
  - intros l Hl. apply Hlive. by left.
  - intros l Hl. apply Hlive. by right.
Qed.

(** X21: the caches of the two providers that [split] returns are
    copies.  Provided every object the provider refers to is on the heap,
    each entry of either cache is the copy of an entry of the original
    cache, made of objects that did not exist before the call, with the
    content of the originals; the two caches share no object, and the
    objects and the cache of the original provider are as they were. *)
Theorem split_caches_are_copies (ratio : Q) (shuffle : bool) w
    (A B : DataProvider) w' :
  provider_live w ->
  split ratio shuffle w = Ret (A, B) w' ->
  touches_only [] (objs w) (objs w') /\
  _cache (self w') = _cache (self w) /\
  (forall half, half = A \/ half = B ->
   forall k' e', _cache half !! k' = Some e' ->
     exists k e, _cache (self w) !! k = Some e /\
                 entry_copy (objs w) (objs w') (k, e) (k', e')) /\
  (forall l, cached (_cache A) l \/ cached (_cache B) l ->
     (length (objs w) <= l < length (objs w'))%nat) /\
  (forall l, cached (_cache A) l -> ~ cached (_cache B) l).
Proof.
  intros Hlive.
  destruct (split_start ratio shuffle w) as (ds & tape & Hp & _ & ->).
  set (w1 := World (objs w) tape (set_dataset ds (self w))).
  assert (provider_live w1) as Hlive1.
  { destruct Hlive as (Hds & Hrm & Hc). split; [|by split].
    cbn. by rewrite Hp. }
  unfold bind at 1.
  destruct (deepcopy_self w1) as [A0 w2|] eqn:HA; [|discriminate].
  destruct (deepcopy_self_cache w1 A0 w2 Hlive1 HA) as (Hs2 & Ht2 & Hgrow2 & HcA).
  assert (provider_live w2) as Hlive2.
  { destruct Hlive1 as (Hds & Hrm & Hc). destruct Hgrow2 as [Hlen _].
    unfold provider_live. rewrite Hs2. split; [|split].
    - eapply Forall_impl; [exact Hds|]. intros r Hr l Hl.
      specialize (Hr l Hl). lia.
    - eapply Forall_impl; [exact Hrm|]. intros r Hr l Hl.
      specialize (Hr l Hl). lia.
    - intros k e Hk. destruct (Hc k e Hk) as [Hkey He]. split.
      + intros l Hl. specialize (Hkey l Hl). lia.
      + intros l Hl. specialize (He l Hl). lia. }
  unfold bind at 1.
  destruct (deepcopy_self w2) as [B0 w3|] eqn:HB; [|discriminate].
  destruct (deepcopy_self_cache w2 B0 w3 Hlive2 HB) as (Hs3 & Ht3 & Hgrow3 & HcB).
  unfold bind, get, ret. intros [= <- <- <-].
  cbn [_cache set_dataset].
  assert (forall k' e', _cache A0 !! k' = Some e' ->
            exists k e, _cache (self w) !! k = Some e /\
                        entry_copy (objs w) (objs w3) (k, e) (k', e')) as HA3.
  { intros k' e' Hk'. destruct (HcA k' e' Hk') as (k & e & Hk & Hcopy).
    exists k, e. split; [exact Hk|]. by eapply entry_copy_grow. }
  assert (forall k' e', _cache B0 !! k' = Some e' ->
            exists k e, _cache (self w) !! k = Some e /\
                        entry_copy (objs w) (objs w3) (k, e) (k', e')) as HB3.
  { intros k' e' Hk'. destruct (HcB k' e' Hk') as (k & e & Hk & Hcopy).
    rewrite Hs2 in Hk. exists k, e. split; [exact Hk|].
    destruct Hlive as (_ & _ & Hc). destruct (Hc k e Hk) as [Hkey He].
    by eapply (entry_copy_source (objs w) (objs w2)). }
  split; [by eapply touches_nothing_trans|].
  split; [by rewrite Hs3, Hs2|].
  split; [by intros half [-> | ->]|].
  split.
  - intros l [(k' & e' & Hk' & Hl)|(k' & e' & Hk' & Hl)].
    + destruct (HA3 k' e' Hk') as (k & e & _ & Hcopy).
      by eapply (entry_copy_fresh _ _ (k, e) (k', e')).
    + destruct (HB3 k' e' Hk') as (k & e & _ & Hcopy).
      by eapply (entry_copy_fresh _ _ (k, e) (k', e')).
  - intros l (ka & ea & Hka & Hla) (kb & eb & Hkb & Hlb).
    destruct (HcA ka ea Hka) as (k1 & e1 & _ & Hcopy1).
    destruct (HcB kb eb Hkb) as (k2 & e2 & _ & Hcopy2).
    pose proof (entry_copy_fresh _ _ (k1, e1) (ka, ea) l Hcopy1 Hla) as H1.
    pose proof (entry_copy_fresh _ _ (k2, e2) (kb, eb) l Hcopy2 Hlb) as H2.
    cbn in H1, H2. lia.
Qed.

End SplitCopies.

(** ** Instances of the further properties *)

Lemma get_batch_negative_index_witness :
  get_batch_annotations (-1) seven_by_three
  = Ret [row "4.bin" "e"; row "5.bin" "f"; row "6.bin" "g"]
        (set_step (-1) seven_by_three) /\
  get_batch_annotations (-3) seven_by_three
  = Exc IndexError (set_step (-3) seven_by_three).
Proof.
  split.
  - apply (proj1 (get_batch_negative_index seven_by_three 1
                    ltac:(reflexivity) ltac:(reflexivity))).
    vm_compute. discriminate.
  - apply (proj2 (get_batch_negative_index seven_by_three 3
                    ltac:(reflexivity) ltac:(reflexivity))).
    reflexivity.
Defined.


Lemma getitem_past_the_end_witness :
  __getitem__ 5 (world_of seven_by_three)
  = Ret (BArray [], BArray []) (World [] [] (set_step 5 seven_by_three)).
Proof.
  apply (getitem_past_the_end 5 (world_of seven_by_three)).
  right. cbn. lia.
Defined.

Lemma process_data_outcome_witness :
  exists r w',
    process_data (row "a.bin" "cat") (world_of three_by_two) = Ret r w' /\
    is_ndarray (objs w') r.1 = true /\
    is_array_or_scalar (objs w') r.2 = true /\
    _on_epoch_end_remove (self w') = [].
Proof.
  destruct (process_data (row "a.bin" "cat") (world_of three_by_two))
    as [r w'|e w'] eqn:Hrun; [|vm_compute in Hrun; discriminate].
  exists r, w'. split; [reflexivity|].
  destruct (process_data_outcome _ _ _ _ Hrun) as (_ & Husable & _).
  apply Husable. intros Hnull. vm_compute in Hrun.
  injection Hrun as <- _. by destruct Hnull.
Defined.

Lemma getitem_accounting_witness :
  exists b w' marked data annotations,
    __getitem__ 1 (world_of three_by_two) = Ret b w' /\
    b = (BArray data, BArray annotations) /\
    (length data + length marked = 1)%nat /\
    _on_epoch_end_remove (self w') = marked.
Proof.
  destruct (__getitem__ 1 (world_of three_by_two)) as [b w'|e w'] eqn:Hrun;
    [|vm_compute in Hrun; discriminate].
  destruct (getitem_accounting _ _ _ _ Hrun)
    as (batch & marked & data & anns & Hget & Hb & _ & Hcount & _ & _ & _ &
        Hrem & _).
  exists b, w', marked, data, anns. split; [reflexivity|]. split; [exact Hb|].
  split; [|exact Hrem].
  vm_compute in Hget. injection Hget as <-. exact Hcount.
Defined.






Lemma pooled_getitem_without_workers_witness :
  torch.__getitem__ [0; 1]%nat 0 idle_pool
  = Some (Exc ValueError
            (World [] [] (set_step 0 three_by_two),
             torch.TorchAttrs 0 false None (Some None))).
Proof.
  apply (pooled_getitem_without_workers [0; 1]%nat 0 idle_pool).
  - reflexivity.
  - cbn. lia.
  - lia.
Defined.

Lemma pooled_failure_in_batch_order_witness :
  exists t',
    torch.__getitem__ [1; 0]%nat 0 failing_pool = Some (Exc (StageError 1) t').
Proof.
  eapply (pooled_failure_in_batch_order [1; 0]%nat 0 failing_pool _ _ 0).
  - reflexivity.
  - by eexists.
  - reflexivity.
  - intros j Hj. lia.
Defined.

Lemma process_data_unhashable_witness :
  process_data (VRef 0, VStr "owl") array_keyed_world
  = Exc TypeError array_keyed_world.
Proof.
  apply (process_data_unhashable (VRef 0, VStr "owl") array_keyed_world).
  - reflexivity.
  - reflexivity.
Defined.


Lemma getitem_fills_cache_witness :
  exists b w',
    __getitem__ 0 (world_of caching_provider) = Ret b w' /\
    (row "a.bin" "cat" ∈ _on_epoch_end_remove (self w') \/
     is_Some (_cache (self w') !! VStr "a.bin")).
Proof.
  destruct (__getitem__ 0 (world_of caching_provider)) as [b w'|e w'] eqn:Hrun;
    [|vm_compute in Hrun; discriminate].
  destruct (getitem_fills_cache 0 (world_of caching_provider) b w'
              [row "a.bin" "cat"; row "b.bin" "dog"] ltac:(reflexivity) Hrun)
    as (_ & _ & Hfill & _).
  exists b, w'. split; [reflexivity|].
  apply (Hfill eq_refl (row "a.bin" "cat")). rewrite !elem_of_cons. by left.
Defined.

Lemma augmentors_assignments_accumulate_witness :
  exists s1 s2 s12,
    augmentors_setter 10 (OtherObject [brighten]) caching_provider
    = Some (Ret tt s1) /\
    augmentors_setter 10 (OtherObject [keep_shape; brighten]) s1
    = Some (Ret tt s2) /\
    augmentors_setter 10 (OtherObject [brighten; keep_shape; brighten])
      caching_provider = Some (Ret tt s12) /\
    _augmentors s2 = _augmentors s12 /\
    logger s2 = logger s12.
Proof.
  destruct (augmentors_assignments_accumulate [brighten] [keep_shape; brighten]
              caching_provider 10 ltac:(cbn; lia))
    as (s1 & s2 & s12 & H1 & H2 & H12 & Ha & Hl & _).
  exists s1, s2, s12. by repeat split.
Defined.

Lemma cached_world_live : provider_live cached_world.
Proof.
  split; [|split].
  - cbn. repeat (apply Forall_cons; split; [intros l [Hl|Hl]; discriminate|]).
    by apply Forall_nil.
  - by apply Forall_nil.
  - intros k e Hk. cbn in Hk.
    apply lookup_singleton_Some in Hk as [<- <-]. split.
    + intros l Hl. discriminate.
    + intros l [Hl|Hl]; [injection Hl as <-; cbn; lia|discriminate].
Qed.

Lemma split_caches_are_copies_witness :
  exists A B w',
    split (1 # 2) false cached_world = Ret (A, B) w' /\
    (forall l, cached (_cache A) l \/ cached (_cache B) l -> (1 <= l)%nat) /\
    (forall l, cached (_cache A) l -> ~ cached (_cache B) l).
Proof.
  destruct (split (1 # 2) false cached_world) as [[A B] w'|e w'] eqn:Hrun;
    [|vm_compute in Hrun; discriminate].
  destruct (split_caches_are_copies (1 # 2) false cached_world A B w'
              cached_world_live Hrun)
    as (_ & _ & _ & Hfresh & Hapart).
  exists A, B, w'. split; [reflexivity|]. split; [|exact Hapart].
  intros l Hl. apply (Hfresh l Hl).
Defined.

